(** * The fault-tolerant job queue of job_manager.py

    A shallow embedding of [src/job_manager.py]: the job store
    ([atomic_write], [load_jobs], [save_jobs]), the queue manager
    ([submit_job], [cancel_job]) and the runner daemon ([run_jobs]), over an
    explicit model of what the program talks to: the [json] module, the
    clock, the directory [jobs/], the process table and the random source.

    Conventions.
    - A job table is what [json.load] returns: a JSON value.  The program
      works on lists and dictionaries as the source does, key by key, and
      raises what Python raises on a missing key or a value of the wrong
      type.  Records ([job]) appear in statements only, through an explicit
      view ([job_to_json], [job_of_json]).
    - Numbers are integers and floats.  A float is the shortest decimal that
      [repr] prints for it, kept in canonical form; [NaN] and the infinities
      are values.  Arithmetic on floats is exact on these decimals: the
      rounding of binary doubles is not modelled.
    - A Python string is the [string] of the bytes of its UTF-8 encoding; a
      byte that belongs to no UTF-8 sequence stands for the lone surrogate
      [json] writes as [\udcXX].  File contents are [list ascii].
    - A computation returns, raises, never returns ([Blocked]), or leaves
      what the model describes ([Unmodelled]). *)

From Stdlib Require Import ZArith NArith Ascii String List Lia.
From Stdlib Require Import DecimalFacts DecimalN.
From stdpp Require Import base list strings gmap.

Local Open Scope list_scope.

(* ===================================================================== *)
(** * JSON values and the codec of Python's [json] module                *)
(* ===================================================================== *)

Module Json.

(** ** Floats

    A Python [float] is modelled by the decimal number its [repr] shows: a
    sign, the significant digits (the first and the last are not zero) and
    the position of the decimal point relative to the first digit.  Every
    value of the type is a different number; the rounding of a decimal
    literal to the nearest binary double is not modelled, so arithmetic is
    exact. *)

Inductive digit : Type := Dg0 | Dg1 | Dg2 | Dg3 | Dg4 | Dg5 | Dg6 | Dg7 | Dg8 | Dg9.

Inductive nzdigit : Type := Nz1 | Nz2 | Nz3 | Nz4 | Nz5 | Nz6 | Nz7 | Nz8 | Nz9.

Definition nz (d : nzdigit) : digit :=
  match d with
  | Nz1 => Dg1 | Nz2 => Dg2 | Nz3 => Dg3 | Nz4 => Dg4 | Nz5 => Dg5
  | Nz6 => Dg6 | Nz7 => Dg7 | Nz8 => Dg8 | Nz9 => Dg9
  end.

Definition nonzero (d : digit) : option nzdigit :=
  match d with
  | Dg0 => None
  | Dg1 => Some Nz1 | Dg2 => Some Nz2 | Dg3 => Some Nz3 | Dg4 => Some Nz4
  | Dg5 => Some Nz5 | Dg6 => Some Nz6 | Dg7 => Some Nz7 | Dg8 => Some Nz8
  | Dg9 => Some Nz9
  end.

(** The significant digits of a number other than zero. *)
Inductive significand : Type :=
| One (d : nzdigit)
| Many (first : nzdigit) (middle : list digit) (last : nzdigit).

Definition digits_of (s : significand) : list digit :=
  match s with
  | One d => [nz d]
  | Many f m l => nz f :: m ++ [nz l]
  end.

(** [FDec neg s p] is [0.d1 d2 ... dn * 10 ^ p], negated when [neg]. *)
Inductive float : Type :=
| FZero (neg : bool)
| FDec (neg : bool) (s : significand) (decpt : Z)
| FInf (neg : bool)
| FNan.

(** What [json.load] returns and [json.dump] accepts.  An object is a
    Python [dict]: an insertion ordered association list whose keys are
    pairwise distinct.  A string holds the UTF-8 bytes of a Python [str]. *)
#[warnings="-register-all"]
Inductive json : Type :=
| JNull
| JBool (b : bool)
| JNum (n : Z)
| JFloat (f : float)
| JStr (s : string)
| JArr (items : list json)
| JObj (members : list (string * json)).

Abbreviation text := (list ascii).

Definition chars (s : string) : text := list_ascii_of_string s.

(** ** Digits *)

Definition digit_char (d : digit) : ascii :=
  match d with
  | Dg0 => "0" | Dg1 => "1" | Dg2 => "2" | Dg3 => "3" | Dg4 => "4"
  | Dg5 => "5" | Dg6 => "6" | Dg7 => "7" | Dg8 => "8" | Dg9 => "9"
  end%char.

Definition digit_of (c : ascii) : option digit :=
  let n := N_of_ascii c in
  if (n =? 48)%N then Some Dg0
  else if (n =? 49)%N then Some Dg1
  else if (n =? 50)%N then Some Dg2
  else if (n =? 51)%N then Some Dg3
  else if (n =? 52)%N then Some Dg4
  else if (n =? 53)%N then Some Dg5
  else if (n =? 54)%N then Some Dg6
  else if (n =? 55)%N then Some Dg7
  else if (n =? 56)%N then Some Dg8
  else if (n =? 57)%N then Some Dg9
  else None.

Fixpoint digits_of_uint (u : Decimal.uint) : list digit :=
  match u with
  | Decimal.Nil => []
  | Decimal.D0 u => Dg0 :: digits_of_uint u
  | Decimal.D1 u => Dg1 :: digits_of_uint u
  | Decimal.D2 u => Dg2 :: digits_of_uint u
  | Decimal.D3 u => Dg3 :: digits_of_uint u
  | Decimal.D4 u => Dg4 :: digits_of_uint u
  | Decimal.D5 u => Dg5 :: digits_of_uint u
  | Decimal.D6 u => Dg6 :: digits_of_uint u
  | Decimal.D7 u => Dg7 :: digits_of_uint u
  | Decimal.D8 u => Dg8 :: digits_of_uint u
  | Decimal.D9 u => Dg9 :: digits_of_uint u
  end.

Fixpoint uint_of_digits (ds : list digit) : Decimal.uint :=
  match ds with
  | [] => Decimal.Nil
  | d :: ds =>
      (match d with
       | Dg0 => Decimal.D0 | Dg1 => Decimal.D1 | Dg2 => Decimal.D2 | Dg3 => Decimal.D3
       | Dg4 => Decimal.D4 | Dg5 => Decimal.D5 | Dg6 => Decimal.D6 | Dg7 => Decimal.D7
       | Dg8 => Decimal.D8 | Dg9 => Decimal.D9
       end) (uint_of_digits ds)
  end.

(** The decimal digits of a natural number, without leading zeros; one
    zero for 0. *)
Definition digits_of_N (n : N) : list digit := digits_of_uint (N.to_uint n).

Definition N_of_digits (ds : list digit) : N := N.of_uint (uint_of_digits ds).

Definition show_digits (ds : list digit) : text := map digit_char ds.

Definition is_zero (d : digit) : bool :=
  match d with Dg0 => true | _ => false end.

Fixpoint strip_leading (ds : list digit) : list digit :=
  match ds with
  | d :: r => if is_zero d then strip_leading r else ds
  | [] => []
  end.

Fixpoint strip_trailing (ds : list digit) : list digit :=
  match ds with
  | d :: r =>
      match strip_trailing r with
      | [] => if is_zero d then [] else [d]
      | r' => d :: r'
      end
  | [] => []
  end.

(** A list of digits that starts and ends with a digit other than zero, as
    a significand. *)
Fixpoint split_last (d : digit) (ds : list digit) : list digit * digit :=
  match ds with
  | [] => ([], d)
  | e :: r => let '(m, l) := split_last e r in (d :: m, l)
  end.

Definition significand_of (ds : list digit) : option significand :=
  match ds with
  | [] => None
  | d :: r =>
      match nonzero d, r with
      | Some f, [] => Some (One f)
      | Some f, e :: r' =>
          let '(m, l) := split_last e r' in
          match nonzero l with
          | Some l' => Some (Many f m l')
          | None => None
          end
      | None, _ => None
      end
  end.

(** ** json.dump(data, f, indent=2) *)

Definition dump_nat (n : N) : text := show_digits (digits_of_N n).

Definition dump_int (n : Z) : text :=
  if (n <? 0)%Z then "-"%char :: dump_nat (Z.abs_N n) else dump_nat (Z.abs_N n).

(** The exponent of the scientific notation: a sign and at least two
    digits. *)
Definition dump_exponent (e : Z) : text :=
  (if (e <? 0)%Z then "-"%char else "+"%char)
    :: (if (Z.abs_N e <? 10)%N then "0"%char :: dump_nat (Z.abs_N e)
        else dump_nat (Z.abs_N e)).

Definition zeros (n : nat) : list digit := repeat Dg0 n.

(** [repr] of a float other than zero: positional notation when the
    decimal point lies between four places before the first digit and
    sixteen after it, scientific notation otherwise. *)
Definition dump_dec (s : significand) (decpt : Z) : text :=
  let ds := digits_of s in
  let n := Z.of_nat (length ds) in
  if ((decpt <? -3) || (16 <? decpt))%Z then
    match ds with
    | [] => []
    | d :: [] => digit_char d :: "e"%char :: dump_exponent (decpt - 1)
    | d :: r => digit_char d :: "."%char :: show_digits r
                  ++ "e"%char :: dump_exponent (decpt - 1)
    end
  else if (decpt <=? 0)%Z then
    "0"%char :: "."%char :: show_digits (zeros (Z.to_nat (- decpt)) ++ ds)
  else if (decpt <? n)%Z then
    show_digits (take (Z.to_nat decpt) ds) ++ "."%char
      :: show_digits (drop (Z.to_nat decpt) ds)
  else
    show_digits (ds ++ zeros (Z.to_nat (decpt - n))) ++ ["."%char; "0"%char].

Definition dump_sign (neg : bool) (t : text) : text :=
  if neg then "-"%char :: t else t.

Definition dump_float (f : float) : text :=
  match f with
  | FZero neg => dump_sign neg (chars "0.0")
  | FDec neg s decpt => dump_sign neg (dump_dec s decpt)
  | FInf neg => dump_sign neg (chars "Infinity")
  | FNan => chars "NaN"
  end.

Definition hex_char (d : N) : ascii :=
  if (d <? 10)%N then ascii_of_N (48 + d) else ascii_of_N (87 + d).

(** [\uxxxx] for a code unit of 16 bits. *)
Definition u_escape (u : N) : text :=
  [ "\"%char; "u"%char; hex_char (u / 4096); hex_char ((u / 256) mod 16);
    hex_char ((u / 16) mod 16); hex_char (u mod 16) ].

(** The escape of one character of the ASCII range under
    [ensure_ascii=True]: the two-letter escapes, [\u00xx] for the control
    characters and DEL. *)
Definition escape_char (c : ascii) : text :=
  let n := N_of_ascii c in
  if (n =? 34)%N then ["\"%char; "034"%char]
  else if (n =? 92)%N then ["\"%char; "\"%char]
  else if (n =? 10)%N then ["\"%char; "n"%char]
  else if (n =? 13)%N then ["\"%char; "r"%char]
  else if (n =? 9)%N then ["\"%char; "t"%char]
  else if (n =? 8)%N then ["\"%char; "b"%char]
  else if (n =? 12)%N then ["\"%char; "f"%char]
  else if ((n <? 32) || (126 <? n))%N then u_escape n
  else [c].

(** The payload of a continuation byte of UTF-8. *)
Definition continuation (c : ascii) : option N :=
  let n := N_of_ascii c in
  if ((128 <=? n) && (n <? 192))%N then Some (n - 128)%N else None.

Definition is_surrogate (cp : N) : bool := ((55296 <=? cp) && (cp <? 57344))%N.

(** The code point of the UTF-8 sequence that starts with the lead byte
    [c], followed by [r], and the number of its continuation bytes.
    Overlong forms, surrogates and code points above 10ffff are no
    UTF-8. *)
Definition decode1 (c : ascii) (r : text) : option (N * nat) :=
  let n := N_of_ascii c in
  if (n <? 194)%N then None
  else if (n <? 224)%N then
    match r with
    | b1 :: _ =>
        match continuation b1 with
        | Some x1 => Some (((n - 192) * 64 + x1)%N, 1)
        | None => None
        end
    | _ => None
    end
  else if (n <? 240)%N then
    match r with
    | b1 :: b2 :: _ =>
        match continuation b1, continuation b2 with
        | Some x1, Some x2 =>
            let cp := (((n - 224) * 64 + x1) * 64 + x2)%N in
            if (cp <? 2048)%N || is_surrogate cp then None else Some (cp, 2)
        | _, _ => None
        end
    | _ => None
    end
  else if (n <? 245)%N then
    match r with
    | b1 :: b2 :: b3 :: _ =>
        match continuation b1, continuation b2, continuation b3 with
        | Some x1, Some x2, Some x3 =>
            let cp := ((((n - 240) * 64 + x1) * 64 + x2) * 64 + x3)%N in
            if ((cp <? 65536) || (1114111 <? cp))%N then None else Some (cp, 3)
        | _, _, _ => None
        end
    | _ => None
    end
  else None.

(** The UTF-8 bytes of a code point (of a surrogate: the three bytes of
    the same scheme). *)
Definition encode (cp : N) : text :=
  if (cp <? 128)%N then [ascii_of_N cp]
  else if (cp <? 2048)%N then
    [ascii_of_N (192 + cp / 64); ascii_of_N (128 + cp mod 64)]
  else if (cp <? 65536)%N then
    [ascii_of_N (224 + cp / 4096); ascii_of_N (128 + (cp / 64) mod 64);
     ascii_of_N (128 + cp mod 64)]
  else
    [ascii_of_N (240 + cp / 262144); ascii_of_N (128 + (cp / 4096) mod 64);
     ascii_of_N (128 + (cp / 64) mod 64); ascii_of_N (128 + cp mod 64)].

(** A code point outside ASCII: one [\uxxxx], a surrogate pair above
    ffff. *)
Definition escape_cp (cp : N) : text :=
  if (cp <? 65536)%N then u_escape cp
  else u_escape (55296 + (cp - 65536) / 1024) ++ u_escape (56320 + (cp - 65536) mod 1024).

(** The escapes of a string, byte by byte; [skip] counts the continuation
    bytes already accounted for.  A byte that starts no UTF-8 sequence stands
    for the lone surrogate [dc00 + byte], as in the strings Python makes of
    undecodable command line arguments. *)
Fixpoint escape_bytes (skip : nat) (s : text) : text :=
  match s with
  | [] => []
  | c :: r =>
      match skip with
      | S k => escape_bytes k r
      | O =>
          if (N_of_ascii c <? 128)%N then escape_char c ++ escape_bytes 0 r
          else
            match decode1 c r with
            | Some (cp, k) => escape_cp cp ++ escape_bytes k r
            | None => u_escape (56320 + N_of_ascii c) ++ escape_bytes 0 r
            end
      end
  end.

Definition escape (s : string) : text := escape_bytes 0 (chars s).

Definition quote (s : string) : text := "034"%char :: escape s ++ ["034"%char].

(** A newline followed by the indentation of nesting level [lvl]. *)
Definition newline (lvl : nat) : text :=
  "010"%char :: repeat " "%char (2 * lvl).

(** The layout of a container: [open close] when empty, otherwise one part
    per line, indented one level deeper and separated by commas. *)
Definition bracket (op cl : ascii) (lvl : nat) (parts : list text) : text :=
  match parts with
  | [] => [op; cl]
  | p :: ps =>
      op :: newline (S lvl) ++ p
         ++ concat (map (fun q => ","%char :: newline (S lvl) ++ q) ps)
         ++ newline lvl ++ [cl]
  end.

Fixpoint dump (lvl : nat) (v : json) : text :=
  match v with
  | JNull => chars "null"
  | JBool true => chars "true"
  | JBool false => chars "false"
  | JNum n => dump_int n
  | JFloat f => dump_float f
  | JStr s => quote s
  | JArr items => bracket "["%char "]"%char lvl (map (dump (S lvl)) items)
  | JObj members =>
      bracket "{"%char "}"%char lvl
        (map (fun m => quote (fst m) ++ ":"%char :: " "%char :: dump (S lvl) (snd m))
             members)
  end.

Definition dumps (v : json) : text := dump 0 v.

(** ** json.load(f) *)

Definition is_ws (c : ascii) : bool :=
  let n := N_of_ascii c in
  ((n =? 32) || (n =? 9) || (n =? 10) || (n =? 13))%N.

Fixpoint skip_ws (s : text) : text :=
  match s with
  | c :: r => if is_ws c then skip_ws r else s
  | [] => []
  end.

(** The longest run of digits at the head of [s]. *)
Fixpoint scan_digits (s : text) : list digit * text :=
  match s with
  | c :: r =>
      match digit_of c with
      | Some d => let '(ds, r') := scan_digits r in (d :: ds, r')
      | None => ([], s)
      end
  | [] => ([], [])
  end.

(** The integer part of a number: a lone zero, or digits that do not start
    with zero. *)
Definition int_part_ok (ds : list digit) : bool :=
  match ds with
  | [] => false
  | [Dg0] => true
  | Dg0 :: _ => false
  | _ => true
  end.

(** The digits of a fraction: none when no point follows; a point needs a
    digit after it. *)
Definition parse_frac (s : text) : option (list digit * text) :=
  match s with
  | c :: r =>
      if (N_of_ascii c =? 46)%N then
        match scan_digits r with
        | ([], _) => None
        | (ds, r') => Some (ds, r')
        end
      else Some ([], s)
  | [] => Some ([], [])
  end.

(** An exponent: [e] or [E], a sign or none, and at least one digit. *)
Definition parse_exp (s : text) : option (option Z * text) :=
  match s with
  | c :: r =>
      if ((N_of_ascii c =? 101) || (N_of_ascii c =? 69))%N then
        let '(neg, r1) :=
          match r with
          | sgn :: r1 =>
              if (N_of_ascii sgn =? 45)%N then (true, r1)
              else if (N_of_ascii sgn =? 43)%N then (false, r1)
              else (false, r)
          | [] => (false, [])
          end in
        match scan_digits r1 with
        | ([], _) => None
        | (ds, r2) =>
            Some (Some (if neg then (- Z.of_N (N_of_digits ds))%Z
                        else Z.of_N (N_of_digits ds)), r2)
        end
      else Some (None, s)
  | [] => Some (None, [])
  end.

(** The float written with the digits [int] before the point, [frac]
    after it, and the exponent [e]. *)
Definition make_float (neg : bool) (int frac : list digit) (e : Z) : float :=
  let all := int ++ frac in
  let stripped := strip_leading all in
  match significand_of (strip_trailing stripped) with
  | Some s =>
      FDec neg s (Z.of_nat (length int) - Z.of_nat (length all - length stripped) + e)
  | None => FZero neg
  end.

(** A number: an [int] when it has neither fraction nor exponent, a
    [float] otherwise. *)
Definition parse_unsigned (neg : bool) (s : text) : option (json * text) :=
  let '(int, r) := scan_digits s in
  if int_part_ok int then
    match parse_frac r with
    | Some (frac, r1) =>
        match parse_exp r1 with
        | Some (e, r2) =>
            match frac, e with
            | [], None =>
                Some (JNum (if neg then (- Z.of_N (N_of_digits int))%Z
                            else Z.of_N (N_of_digits int)), r2)
            | _, _ => Some (JFloat (make_float neg int frac (default 0%Z e)), r2)
            end
        | None => None
        end
    | None => None
    end
  else None.

Definition parse_number (s : text) : option (json * text) :=
  match s with
  | c :: r => if (N_of_ascii c =? 45)%N then parse_unsigned true r else parse_unsigned false s
  | [] => None
  end.

Definition hex_val (c : ascii) : option N :=
  let n := N_of_ascii c in
  if ((48 <=? n) && (n <=? 57))%N then Some (n - 48)%N
  else if ((97 <=? n) && (n <=? 102))%N then Some (n - 87)%N
  else if ((65 <=? n) && (n <=? 70))%N then Some (n - 55)%N
  else None.

Definition hex4 (a b c d : ascii) : option N :=
  match hex_val a, hex_val b, hex_val c, hex_val d with
  | Some x, Some y, Some z, Some w => Some (((x * 16 + y) * 16 + z) * 16 + w)%N
  | _, _, _, _ => None
  end.

Definition unescape (c : ascii) : option ascii :=
  let n := N_of_ascii c in
  if (n =? 34)%N then Some "034"%char
  else if (n =? 92)%N then Some "\"%char
  else if (n =? 47)%N then Some "/"%char
  else if (n =? 98)%N then Some "008"%char
  else if (n =? 102)%N then Some "012"%char
  else if (n =? 110)%N then Some "010"%char
  else if (n =? 114)%N then Some "013"%char
  else if (n =? 116)%N then Some "009"%char
  else None.

Definition prepend (t : text) (r : option (text * text)) : option (text * text) :=
  match r with
  | Some (s, r') => Some (t ++ s, r')
  | None => None
  end.

Definition is_high (u : N) : bool := ((55296 <=? u) && (u <? 56320))%N.

Definition is_low (u : N) : bool := ((56320 <=? u) && (u <? 57344))%N.

(** The bytes of the code unit of a [\u] escape that is not the first half
    of a surrogate pair. *)
Definition unit_bytes (u : N) : text :=
  if ((56448 <=? u) && (u <? 56576))%N then [ascii_of_N (u - 56320)] else encode u.

(** [\uxxxx] at the head of [s]: its code unit and what follows. *)
Definition low_escape (s : text) : option N :=
  match s with
  | bs :: u :: a :: b :: x :: y :: _ =>
      if ((N_of_ascii bs =? 92) && (N_of_ascii u =? 117))%N then
        match hex4 a b x y with
        | Some l => if is_low l then Some l else None
        | None => None
        end
      else None
  | _ => None
  end.

(** The body of a string literal, after its opening quote, up to and
    including the closing quote.  Raw control characters are refused, as
    Python's strict mode does; raw bytes outside ASCII must be UTF-8, as the
    file is decoded before it is scanned.  [skip] counts the continuation
    bytes of a sequence already checked. *)
Fixpoint parse_string_body (skip : nat) (s : text) : option (text * text) :=
  match s with
  | [] => None
  | c :: r =>
      match skip with
      | S k => prepend [c] (parse_string_body k r)
      | O =>
          let n := N_of_ascii c in
          if (n =? 34)%N then Some ([], r)
          else if (n =? 92)%N then
            match r with
            | e :: r1 =>
                if (N_of_ascii e =? 117)%N then
                  match r1 with
                  | a :: b :: x :: y :: r2 =>
                      match hex4 a b x y with
                      | Some u =>
                          match (if is_high u then low_escape r2 else None), r2 with
                          | Some l, _ :: _ :: _ :: _ :: _ :: _ :: r3 =>
                              prepend (encode (65536 + (u - 55296) * 1024 + (l - 56320))%N)
                                      (parse_string_body 0 r3)
                          | _, _ => prepend (unit_bytes u) (parse_string_body 0 r2)
                          end
                      | None => None
                      end
                  | _ => None
                  end
                else
                  match unescape e with
                  | Some u => prepend [u] (parse_string_body 0 r1)
                  | None => None
                  end
            | [] => None
            end
          else if (n <? 32)%N then None
          else if (n <? 128)%N then prepend [c] (parse_string_body 0 r)
          else
            match decode1 c r with
            | Some (_, k) => prepend [c] (parse_string_body k r)
            | None => None
            end
      end
  end.

Definition parse_string (s : text) : option (string * text) :=
  match parse_string_body 0 s with
  | Some (t, r) => Some (string_of_list_ascii t, r)
  | None => None
  end.

(** [d[k] = v] on a Python dictionary: an existing key keeps its place. *)
Fixpoint dict_set (k : string) (v : json) (d : list (string * json)) : list (string * json) :=
  match d with
  | [] => [(k, v)]
  | (k', v') :: d' =>
      if String.eqb k k' then (k, v) :: d' else (k', v') :: dict_set k v d'
  end.

Definition dict_of_pairs (ps : list (string * json)) : list (string * json) :=
  fold_left (fun d p => dict_set (fst p) (snd p) d) ps [].

Fixpoint dict_get (k : string) (d : list (string * json)) : option json :=
  match d with
  | [] => None
  | (k', v) :: d' => if String.eqb k k' then Some v else dict_get k d'
  end.

Definition starts_with (p : string) (s : text) : option text :=
  let p := chars p in
  if bool_decide (take (length p) s = p) then Some (drop (length p) s) else None.

(** The recursive-descent scanner; [fuel] bounds the nesting, see
    [loads]. *)
Fixpoint parse_value (fuel : nat) (s : text) : option (json * text) :=
  match fuel with
  | O => None
  | S fuel =>
      match skip_ws s with
      | [] => None
      | c :: r =>
          let n := N_of_ascii c in
          if (n =? 110)%N then
            match starts_with "null" (c :: r) with
            | Some r' => Some (JNull, r') | None => None end
          else if (n =? 116)%N then
            match starts_with "true" (c :: r) with
            | Some r' => Some (JBool true, r') | None => None end
          else if (n =? 102)%N then
            match starts_with "false" (c :: r) with
            | Some r' => Some (JBool false, r') | None => None end
          else if (n =? 78)%N then
            match starts_with "NaN" (c :: r) with
            | Some r' => Some (JFloat FNan, r') | None => None end
          else if (n =? 73)%N then
            match starts_with "Infinity" (c :: r) with
            | Some r' => Some (JFloat (FInf false), r') | None => None end
          else if (n =? 34)%N then
            match parse_string r with
            | Some (str, r') => Some (JStr str, r') | None => None end
          else if (n =? 91)%N then
            match skip_ws r with
            | c' :: r' =>
                if (N_of_ascii c' =? 93)%N then Some (JArr [], r')
                else
                  match parse_elems fuel r with
                  | Some (vs, r'') => Some (JArr vs, r'') | None => None end
            | [] => None
            end
          else if (n =? 123)%N then
            match skip_ws r with
            | c' :: r' =>
                if (N_of_ascii c' =? 125)%N then Some (JObj [], r')
                else
                  match parse_members fuel r with
                  | Some (ms, r'') => Some (JObj (dict_of_pairs ms), r'')
                  | None => None end
            | [] => None
            end
          else
            match starts_with "-Infinity" (c :: r) with
            | Some r' => Some (JFloat (FInf true), r')
            | None => parse_number (c :: r)
            end
      end
  end
with parse_elems (fuel : nat) (s : text) : option (list json * text) :=
  match fuel with
  | O => None
  | S fuel =>
      match parse_value fuel s with
      | Some (v, r) =>
          match skip_ws r with
          | c :: r' =>
              if (N_of_ascii c =? 44)%N then
                match parse_elems fuel r' with
                | Some (vs, r'') => Some (v :: vs, r'') | None => None end
              else if (N_of_ascii c =? 93)%N then Some ([v], r')
              else None
          | [] => None
          end
      | None => None
      end
  end
with parse_members (fuel : nat) (s : text) : option (list (string * json) * text) :=
  match fuel with
  | O => None
  | S fuel =>
      match skip_ws s with
      | q :: r0 =>
          if (N_of_ascii q =? 34)%N then
            match parse_string r0 with
            | Some (k, r1) =>
                match skip_ws r1 with
                | colon :: r2 =>
                    if (N_of_ascii colon =? 58)%N then
                      match parse_value fuel r2 with
                      | Some (v, r) =>
                          match skip_ws r with
                          | c :: r' =>
                              if (N_of_ascii c =? 44)%N then
                                match parse_members fuel r' with
                                | Some (ms, r'') => Some ((k, v) :: ms, r'')
                                | None => None end
                              else if (N_of_ascii c =? 125)%N then Some ([(k, v)], r')
                              else None
                          | [] => None
                          end
                      | None => None
                      end
                    else None
                | [] => None
                end
            | None => None
            end
          else None
      | [] => None
      end
  end.

(** [json.loads]: one value, then nothing but white space.  [None] stands
    for the [ValueError] Python raises, and for the [UnicodeDecodeError] of
    reading a file that is not UTF-8. *)
Definition loads (s : text) : option json :=
  match parse_value (S (2 * length s)) s with
  | Some (v, r) => match skip_ws r with [] => Some v | _ :: _ => None end
  | None => None
  end.

End Json.

Export Json.
(* ===================================================================== *)
(** * Computations: state, exceptions, and runs that do not come back     *)
(* ===================================================================== *)

(** The exceptions the modelled calls raise.  All are subclasses of
    [Exception]; the first five are subclasses of [OSError]
    ([NoSpaceError] is the [OSError] of a full disk); [ValueError] stands
    for its subclasses [JSONDecodeError] and [UnicodeDecodeError] too. *)
Inductive exn : Type :=
| FileNotFoundError
| IsADirectoryError
| ProcessLookupError
| PermissionError
| NoSpaceError
| ValueError
| TypeError
| AttributeError
| KeyError
| OverflowError.

Definition is_OSError (e : exn) : bool :=
  match e with
  | FileNotFoundError | IsADirectoryError | ProcessLookupError | PermissionError
  | NoSpaceError => true
  | _ => false
  end.

(** How a computation ends: it returns, it raises, it waits for ever
    ([p.wait()] on a process that does not exit), or it does something this
    model does not describe (see [os_kill], [log_name] and [Popen]);
    nothing is proved of a run that ends in [Unmodelled]. *)
Inductive outcome (A : Type) : Type :=
| Ok (a : A)
| Raise (e : exn)
| Blocked
| Unmodelled.

Arguments Ok {A} a.
Arguments Raise {A} e.
Arguments Blocked {A}.
Arguments Unmodelled {A}.

Definition M (S A : Type) : Type := S -> outcome A * S.

#[global] Instance M_ret {S} : MRet (M S) := fun A a s => (Ok a, s).

#[global] Instance M_bind {S} : MBind (M S) := fun A B f m s =>
  match m s with
  | (Ok a, s') => f a s'
  | (Raise e, s') => (Raise e, s')
  | (Blocked, s') => (Blocked, s')
  | (Unmodelled, s') => (Unmodelled, s')
  end.

Definition raise {S A} (e : exn) : M S A := fun s => (Raise e, s).

Definition unmodelled {S A} : M S A := fun s => (Unmodelled, s).

(** [try: body except: handler]; what the body did to the state before it
    raised stays done. *)
Definition try_except {S A} (body : M S A) (handler : exn -> M S A) : M S A :=
  fun s =>
    match body s with
    | (Raise e, s') => handler e s'
    | r => r
    end.

Definition gets {S A} (f : S -> A) : M S A := fun s => (Ok (f s), s).

Definition modify {S} (f : S -> S) : M S unit := fun s => (Ok tt, f s).

(* ===================================================================== *)
(** * Python values                                                       *)
(* ===================================================================== *)

(** ** Float arithmetic, exact on the decimal numbers of the model *)

(** A finite float as mantissa and exponent, [m * 10 ^ e]. *)
Definition mantissa_exponent (f : float) : option (Z * Z) :=
  match f with
  | FZero _ => Some (0, 0)%Z
  | FDec neg s p =>
      let ds := digits_of s in
      let m := Z.of_N (N_of_digits ds) in
      Some (if neg then (- m)%Z else m, (p - Z.of_nat (length ds))%Z)
  | _ => None
  end.

Definition of_mantissa_exponent (m e : Z) : float :=
  let ds := digits_of_N (Z.abs_N m) in
  match significand_of (strip_trailing ds) with
  | Some s => FDec (m <? 0)%Z s (Z.of_nat (length ds) + e)
  | None => FZero false
  end.

(** [float(n)] *)
Definition float_of_Z (n : Z) : float := of_mantissa_exponent n 0.

(** Two numbers over their smaller exponent. *)
Definition align (a b : Z * Z) : Z * Z * Z :=
  let e := Z.min (snd a) (snd b) in
  ((fst a * 10 ^ (snd a - e))%Z, (fst b * 10 ^ (snd b - e))%Z, e).

Definition fneg (f : float) : float :=
  match f with
  | FZero n => FZero (negb n)
  | FDec n s p => FDec (negb n) s p
  | FInf n => FInf (negb n)
  | FNan => FNan
  end.

Definition fadd (a b : float) : float :=
  match a, b with
  | FNan, _ | _, FNan => FNan
  | FInf x, FInf y => if Bool.eqb x y then FInf x else FNan
  | FInf x, _ => FInf x
  | _, FInf y => FInf y
  | FZero x, FZero y => FZero (x && y)
  | _, _ =>
      match mantissa_exponent a, mantissa_exponent b with
      | Some p, Some q => let '(x, y, e) := align p q in of_mantissa_exponent (x + y) e
      | _, _ => FNan
      end
  end.

Definition fsub (a b : float) : float := fadd a (fneg b).

(** [a < b] *)
Definition flt (a b : float) : bool :=
  match a, b with
  | FNan, _ | _, FNan => false
  | FInf x, FInf y => x && negb y
  | FInf x, _ => x
  | _, FInf y => negb y
  | _, _ =>
      match mantissa_exponent a, mantissa_exponent b with
      | Some p, Some q => let '(x, y, _) := align p q in (x <? y)%Z
      | _, _ => false
      end
  end.

(** ** Operations on the values [json.load] returns *)

(** [bool(v)] *)
Definition py_truthy (v : json) : bool :=
  match v with
  | JNull => false
  | JBool b => b
  | JNum n => negb (n =? 0)%Z
  | JFloat (FZero _) => false
  | JFloat _ => true
  | JStr s => negb (String.eqb s EmptyString)
  | JArr items => match items with [] => false | _ => true end
  | JObj members => match members with [] => false | _ => true end
  end.

(** [v == s] for a string [s] *)
Definition py_eq_str (v : json) (s : string) : bool :=
  match v with
  | JStr t => String.eqb t s
  | _ => false
  end.

Section Values.
Context {S : Type}.

(** [v[k]] for a string [k] *)
Definition getitem (v : json) (k : string) : M S json :=
  match v with
  | JObj d =>
      match dict_get k d with
      | Some x => mret x
      | None => raise KeyError
      end
  | _ => raise TypeError
  end.

(** [v.get(k, default)] *)
Definition get (v : json) (k : string) (default : json) : M S json :=
  match v with
  | JObj d =>
      match dict_get k d with
      | Some x => mret x
      | None => mret default
      end
  | _ => raise AttributeError
  end.

(** A number as a float; [True] and [False] are the integers 1 and 0. *)
Definition as_float (v : json) : M S float :=
  match v with
  | JNum n =>
      if (2 ^ 1024 <=? Z.abs n)%Z then raise OverflowError else mret (float_of_Z n)
  | JBool b => mret (float_of_Z (if b then 1 else 0))
  | JFloat f => mret f
  | _ => raise TypeError
  end.

(** [t - v] for a float [t] *)
Definition py_sub (t : float) (v : json) : M S float :=
  x ← as_float v; mret (fsub t x).

(** [x > v] for a float [x]; a comparison with an integer is exact and
    never overflows. *)
Definition py_gt (x : float) (v : json) : M S bool :=
  match v with
  | JNum n => mret (flt (float_of_Z n) x)
  | JBool b => mret (flt (float_of_Z (if b then 1 else 0)) x)
  | JFloat f => mret (flt f x)
  | _ => raise TypeError
  end.

End Values.

(** The characters of a string: a UTF-8 sequence is one character, a byte
    that starts none is one too. *)
Fixpoint py_chars_from (skip : nat) (cur : text) (s : text) : list text :=
  match s with
  | [] => match cur with [] => [] | _ => [cur] end
  | c :: r =>
      match skip with
      | S k => py_chars_from k (cur ++ [c]) r
      | O =>
          let before := match cur with [] => [] | _ => [cur] end in
          let k := if (N_of_ascii c <? 128)%N then 0
                   else match decode1 c r with Some (_, k) => k | None => 0 end in
          before ++ py_chars_from k [c] r
      end
  end.

Definition py_chars (s : string) : list string :=
  map string_of_list_ascii (py_chars_from 0 [] (chars s)).

(** [s[:n]] *)
Definition py_take (n : nat) (s : string) : string :=
  String.concat EmptyString (take n (py_chars s)).

(** [iter(v)]: the elements of a list, the keys of a dictionary, the
    characters of a string. *)
Definition iter_of {S} (v : json) : M S (list json) :=
  match v with
  | JArr items => mret items
  | JObj members => mret (map (fun m => JStr (fst m)) members)
  | JStr s => mret (map JStr (py_chars s))
  | _ => raise TypeError
  end.
(* ===================================================================== *)
(** * The operating system                                                *)
(* ===================================================================== *)

Inductive signal : Type := SIG0 | SIGTERM | SIGKILL.

(** What a launched shell command does: it exits after some time with an
    exit code, or it never exits. *)
Inductive behaviour : Type :=
| Exits (duration : float) (code : Z)
| Hangs.

Record process : Type := Process {
  may_signal : bool;     (* may this user signal it *)
  fate : behaviour
}.

(** What is at a path: nothing, a file, a file this user may not read, a
    directory. *)
Inductive node : Type :=
| Absent
| File (content : text)
| Locked (content : text)
| Directory.

(** The directory [jobs/]: the store file, the files [mkstemp] made that
    are still there, the two log areas (each [None] when the directory is
    missing, else the names of the files in it), whether this user may
    create files in [jobs/], and whether the disk has room left. *)
Record store_dir : Type := StoreDir {
  queue : node;
  temps : list (nat * text);
  running : option (gset string);
  finished : option (gset string);
  access : bool;
  space : bool
}.

(** The lines the program prints; a value printed through an f-string is
    kept as the value. *)
Inductive message : Type :=
| Msg_submitted (i : string)
| Msg_name (n : string)
| Msg_command (c : string)
| Msg_not_found (i : string)
| Msg_cancelled_queued (i : string)
| Msg_cancelled_running (i : string)
| Msg_failed_to_kill (p : json)
| Msg_cannot_cancel (i : string) (s : json)
| Msg_orphaned (i : json)
| Msg_starting (i n : json)
| Msg_done (i s : json)
| Msg_failed_to_start (i : json) (e : exn)
| Msg_timed_out (i : json)
| Msg_runner_started
| Msg_press_ctrl_c.

(** What an observer of the machine sees happen, oldest first. *)
Inductive event : Type :=
| Printed (m : message)
| Spawned (c : string) (p : Z)
| Signalled (p : Z) (s : signal)
| Stored (at_time : float) (content : text).

Record world : Type := World {
  now : float;                      (* the clock *)
  disk : option store_dir;          (* jobs/, None when missing *)
  procs : gmap Z process;           (* the live processes *)
  next_pid : Z;                     (* the pid of the next child *)
  programs : string -> behaviour;   (* what each shell command does *)
  entropy : nat -> N;               (* the bytes of os.urandom, per draw *)
  drawn : nat;
  trace : list event
}.

Definition set_now (t : float) (w : world) : world :=
  World t (disk w) (procs w) (next_pid w) (programs w) (entropy w) (drawn w) (trace w).

Definition set_disk (d : option store_dir) (w : world) : world :=
  World (now w) d (procs w) (next_pid w) (programs w) (entropy w) (drawn w) (trace w).

Definition set_procs (ps : gmap Z process) (w : world) : world :=
  World (now w) (disk w) ps (next_pid w) (programs w) (entropy w) (drawn w) (trace w).

Definition set_next_pid (p : Z) (w : world) : world :=
  World (now w) (disk w) (procs w) p (programs w) (entropy w) (drawn w) (trace w).

Definition set_drawn (n : nat) (w : world) : world :=
  World (now w) (disk w) (procs w) (next_pid w) (programs w) (entropy w) n (trace w).

Definition log (e : event) (w : world) : world :=
  World (now w) (disk w) (procs w) (next_pid w) (programs w) (entropy w) (drawn w)
        (trace w ++ [e]).

Definition OS (A : Type) : Type := M world A.

Definition JOB_FILE : string := "jobs/queue.json".

(** Default timeout in seconds. *)
Definition TIMEOUT : Z := 3600.

(** ** The calls *)

Definition time_time : OS float := gets now.

Definition time_sleep (d : Z) : OS unit :=
  modify (fun w => set_now (fadd (now w) (float_of_Z d)) w).

Definition print (m : message) : OS unit := modify (log (Printed m)).

(** [os.path.dirname]: what precedes the last slash. *)
Fixpoint has_slash (s : string) : bool :=
  match s with
  | EmptyString => false
  | String c r => (N_of_ascii c =? 47)%N || has_slash r
  end.

Fixpoint dirname (s : string) : string :=
  match s with
  | EmptyString => EmptyString
  | String c r => if has_slash r then String c (dirname r) else EmptyString
  end.

Definition STORE_DIR : string := "jobs".

(** [os.path.exists(path)] *)
Definition os_path_exists (path : string) : OS bool :=
  gets (fun w =>
    if String.eqb path JOB_FILE then
      match disk w with
      | Some d => match queue d with Absent => false | _ => true end
      | None => false
      end
    else false).

(** [open(path, 'r')] and reading the whole file. *)
Definition read_file (path : string) : OS text := fun w =>
  if String.eqb path JOB_FILE then
    match disk w with
    | Some d =>
        match queue d with
        | File c => (Ok c, w)
        | Locked _ => (Raise PermissionError, w)
        | Directory => (Raise IsADirectoryError, w)
        | Absent => (Raise FileNotFoundError, w)
        end
    | None => (Raise FileNotFoundError, w)
    end
  else (Raise FileNotFoundError, w).

(** [json.load] of what was read; a file that is not UTF-8 fails in the
    read, one that is not JSON in the scanner. *)
Definition json_load (s : text) : OS json :=
  match loads s with
  | Some v => mret v
  | None => raise ValueError
  end.

Definition with_temps (ts : list (nat * text)) (d : store_dir) : store_dir :=
  StoreDir (queue d) ts (running d) (finished d) (access d) (space d).

(** [tempfile.mkstemp(dir=dir)]: a new empty file in [dir]. *)
Definition mkstemp (dir : string) : OS nat := fun w =>
  if String.eqb dir STORE_DIR then
    match disk w with
    | Some d =>
        if access d then
          let tmp := length (temps d) in
          (Ok tmp, set_disk (Some (with_temps ((tmp, []) :: temps d) d)) w)
        else (Raise PermissionError, w)
    | None => (Raise FileNotFoundError, w)
    end
  else (Raise FileNotFoundError, w).

Fixpoint temp_write (tmp : nat) (c : text) (ts : list (nat * text)) : list (nat * text) :=
  match ts with
  | [] => []
  | (n, c') :: ts' => if Nat.eqb n tmp then (n, c) :: ts' else (n, c') :: temp_write tmp c ts'
  end.

Fixpoint temp_read (tmp : nat) (ts : list (nat * text)) : option text :=
  match ts with
  | [] => None
  | (n, c) :: ts' => if Nat.eqb n tmp then Some c else temp_read tmp ts'
  end.

Fixpoint temp_remove (tmp : nat) (ts : list (nat * text)) : list (nat * text) :=
  match ts with
  | [] => []
  | (n, c) :: ts' => if Nat.eqb n tmp then ts' else (n, c) :: temp_remove tmp ts'
  end.

(** [with os.fdopen(fd, 'w') as f: json.dump(data, f, indent=2)] *)
Definition write_json (tmp : nat) (data : json) : OS unit := fun w =>
  match disk w with
  | Some d =>
      if space d then
        (Ok tt, set_disk (Some (with_temps (temp_write tmp (dumps data) (temps d)) d)) w)
      else (Raise NoSpaceError, w)
  | None => (Raise FileNotFoundError, w)
  end.

(** [os.replace(tmp, path)]: atomic; refused when [path] is a directory. *)
Definition os_replace (tmp : nat) (path : string) : OS unit := fun w =>
  match disk w with
  | Some d =>
      match temp_read tmp (temps d) with
      | Some c =>
          if String.eqb path JOB_FILE then
            match queue d with
            | Directory => (Raise IsADirectoryError, w)
            | _ =>
                (Ok tt,
                 log (Stored (now w) c)
                   (set_disk (Some (StoreDir (File c) (temp_remove tmp (temps d))
                                             (running d) (finished d) (access d) (space d)))
                             w))
            end
          else (Raise FileNotFoundError, w)
      | None => (Raise FileNotFoundError, w)
      end
  | None => (Raise FileNotFoundError, w)
  end.

(** [os.unlink(tmp)] *)
Definition os_unlink (tmp : nat) : OS unit := fun w =>
  match disk w with
  | Some d =>
      match temp_read tmp (temps d) with
      | Some _ => (Ok tt, set_disk (Some (with_temps (temp_remove tmp (temps d)) d)) w)
      | None => (Raise FileNotFoundError, w)
      end
  | None => (Raise FileNotFoundError, w)
  end.

(** The name [f"{id}.out"] of a log file, for the ids whose text the model
    gives: a string (without a slash or a NUL, and short enough for a file
    name) or an integer. *)
Fixpoint plain_name (s : string) : bool :=
  match s with
  | EmptyString => true
  | String c r => negb ((N_of_ascii c =? 47)%N || (N_of_ascii c =? 0)%N) && plain_name r
  end.

Definition log_name (id : json) (ext : string) : option string :=
  match id with
  | JStr s =>
      if plain_name s && (String.length s + String.length ext <=? 255)
      then Some (s +:+ ext) else None
  | JNum n => Some (string_of_list_ascii (dump_int n) +:+ ext)
  | _ => None
  end.

(** [open(f"jobs/running/{id}{ext}", 'w')] *)
Definition open_log (id : json) (ext : string) : OS unit := fun w =>
  match log_name id ext with
  | Some name =>
      match disk w with
      | Some d =>
          match running d with
          | Some r =>
              (Ok tt, set_disk (Some (StoreDir (queue d) (temps d) (Some ({[ name ]} ∪ r))
                                               (finished d) (access d) (space d))) w)
          | None => (Raise FileNotFoundError, w)
          end
      | None => (Raise FileNotFoundError, w)
      end
  | None => (Unmodelled, w)
  end.

(** [os.rename(f"jobs/running/{id}{ext}", f"jobs/finished/{id}{ext}")] *)
Definition move_log (id : json) (ext : string) : OS unit := fun w =>
  match log_name id ext with
  | Some name =>
      match disk w with
      | Some d =>
          match running d, finished d with
          | Some r, Some f =>
              if bool_decide (name ∈ r) then
                (Ok tt, set_disk (Some (StoreDir (queue d) (temps d) (Some (r ∖ {[ name ]}))
                                                 (Some ({[ name ]} ∪ f)) (access d) (space d)))
                                 w)
              else (Raise FileNotFoundError, w)
          | _, _ => (Raise FileNotFoundError, w)
          end
      | None => (Raise FileNotFoundError, w)
      end
  | None => (Unmodelled, w)
  end.

(** [os.kill(pid, sig)].  The pid must be an integer ([True] and [False]
    are 1 and 0) that fits a C [int].  A pid of zero or below addresses
    process groups, which the model does not describe.  A signal other than
    the probe ends the process (the default disposition of SIGTERM, and
    SIGKILL always). *)
Definition os_kill (pid : json) (s : signal) : OS unit := fun w =>
  match match pid with
        | JNum n => Some n
        | JBool b => Some (if b then 1 else 0)%Z
        | _ => None
        end with
  | None => (Raise TypeError, w)
  | Some p =>
      if ((p <? - 2 ^ 31) || (2 ^ 31 <=? p))%Z then (Raise OverflowError, w)
      else if (p <=? 0)%Z then (Unmodelled, w)
      else
        match procs w !! p with
        | None => (Raise ProcessLookupError, w)
        | Some pr =>
            if may_signal pr then
              (Ok tt,
               log (Signalled p s)
                 (match s with
                  | SIG0 => w
                  | _ => set_procs (delete p (procs w)) w
                  end))
            else (Raise PermissionError, w)
        end
  end.

(** The command line [subprocess.Popen(cmd, shell=True)] gives the shell:
    a string as it is; a number, a truth value or [None] is refused; a list
    or a dictionary is not described. *)
Fixpoint no_nul (s : string) : bool :=
  match s with
  | EmptyString => true
  | String c r => negb (N_of_ascii c =? 0)%N && no_nul r
  end.

(** [subprocess.Popen(cmd, shell=True, ...)]: the shell is started and the
    call returns at once. *)
Definition Popen (cmd : json) : OS Z := fun w =>
  match cmd with
  | JStr c =>
      if no_nul c then
        let p := next_pid w in
        (Ok p,
         log (Spawned c p)
           (set_next_pid (p + 1)%Z
              (set_procs (<[ p := Process true (programs w c) ]> (procs w)) w)))
      else (Raise ValueError, w)
  | JArr _ | JObj _ => (Unmodelled, w)
  | _ => (Raise TypeError, w)
  end.

(** [p.wait()]: returns the exit code once the child has exited, and never
    when it does not exit. *)
Definition wait (p : Z) : OS Z := fun w =>
  match procs w !! p with
  | Some pr =>
      match fate pr with
      | Exits d code => (Ok code, set_now (fadd (now w) d) (set_procs (delete p (procs w)) w))
      | Hangs => (Blocked, w)
      end
  | None => (Raise ProcessLookupError, w)
  end.

(** ** uuid.uuid4() and str() *)

(** [os.urandom(16)] as an integer. *)
Definition urandom16 : OS N := fun w =>
  (Ok (entropy w (drawn w) mod 2 ^ 128)%N, set_drawn (S (drawn w)) w).

(** The version and variant bits of [UUID(bytes=..., version=4)]. *)
Definition uuid_int (raw : N) : N :=
  let i := N.ldiff raw (N.shiftl 0xc000 48) in
  let i := N.lor i (N.shiftl 0x8000 48) in
  let i := N.ldiff i (N.shiftl 0xf000 64) in
  N.lor i (N.shiftl 4 76).

Definition uuid4 : OS N := raw ← urandom16; mret (uuid_int raw).

(** ['%0kx' % n] for [n < 16 ^ k]. *)
Fixpoint hex (k : nat) (n : N) : string :=
  match k with
  | O => EmptyString
  | S k => hex k (n / 16) +:+ String (hex_char (n mod 16)) EmptyString
  end.

(** [s[a:b]] on a string of ASCII characters. *)
Definition slice (a b : nat) (s : string) : string := substring a (b - a) s.

(** [str(UUID)]: 8-4-4-4-12 hexadecimal digits. *)
Definition uuid_str (u : N) : string :=
  let h := hex 32 u in
  slice 0 8 h +:+ "-" +:+ slice 8 12 h +:+ "-" +:+ slice 12 16 h +:+ "-"
    +:+ slice 16 20 h +:+ "-" +:+ slice 20 32 h.
(* ===================================================================== *)
(** * The job store                                                       *)
(* ===================================================================== *)

(** Atomically write JSON data to file. *)
Definition atomic_write (path : string) (data : json) : OS unit :=
  tmp ← mkstemp (dirname path);
  try_except
    (write_json tmp data;;
     os_replace tmp path)
    (fun e => os_unlink tmp;; raise e).

(** Load jobs from queue file. *)
Definition load_jobs : OS json :=
  present ← os_path_exists JOB_FILE;
  if negb present then mret (JArr [])
  else
    try_except
      (s ← read_file JOB_FILE; json_load s)
      (fun _ => mret (JArr [])).

(** Save jobs to queue file atomically. *)
Definition save_jobs (jobs : json) : OS unit := atomic_write JOB_FILE jobs.

(* ===================================================================== *)
(** * The queue manager                                                   *)
(* ===================================================================== *)

(** [name or command[:50]] *)
Definition name_or (name : option string) (fallback : string) : string :=
  match name with
  | Some (String c n) => String c n
  | _ => fallback
  end.

(** The dictionary literal of [submit_job]. *)
Definition new_job (u : N) (t : float) (command : string) (name : option string)
    (timeout : option Z) : json :=
  JObj [ ("id", JStr (slice 0 8 (uuid_str u)));
         ("name", JStr (name_or name (py_take 50 command)));
         ("cmd", JStr command);
         ("state", JStr "queued");
         ("pid", JNull);
         ("submit_time", JFloat t);
         ("start_time", JNull);
         ("end_time", JNull);
         ("timeout", JNum (default TIMEOUT timeout)) ].

(** Submit a job to the queue; returns the job id.  [jobs.append] needs a
    list, of whatever elements. *)
Definition submit_job (command : string) (opt_name : option string)
    (opt_timeout : option Z) : OS string :=
  u ← uuid4;
  t ← time_time;
  let job := new_job u t command opt_name opt_timeout in
  jobs ← load_jobs;
  match jobs with
  | JArr items =>
      save_jobs (JArr (items ++ [job]));;
      print (Msg_submitted (slice 0 8 (uuid_str u)));;
      print (Msg_name (name_or opt_name (py_take 50 command)));;
      print (Msg_command command);;
      mret (slice 0 8 (uuid_str u))
  | _ => raise AttributeError
  end.

(** [next((j for j in jobs if j['id'] == job_id), None)]: the first element
    with that id and its place, counted from [i]. *)
Fixpoint find_job (job_id : string) (i : nat) (items : list json) : OS (option (nat * json)) :=
  match items with
  | [] => mret None
  | j :: rest =>
      v ← getitem j "id";
      if py_eq_str v job_id then mret (Some (i, j)) else find_job job_id (S i) rest
  end.

(** [job[k] = v] on a dictionary. *)
Definition setitem (job : json) (k : string) (v : json) : json :=
  match job with
  | JObj d => JObj (dict_set k v d)
  | _ => job
  end.

(** Cancel a running or queued job.  The job found is a dictionary of the
    list [jobs]; changing it changes the list. *)
Definition cancel_job (job_id : string) : OS unit :=
  jobs ← load_jobs;
  items ← iter_of jobs;
  found ← find_job job_id 0 items;
  match found with
  | None => print (Msg_not_found job_id)
  | Some (i, job) =>
      state ← getitem job "state";
      if py_eq_str state "queued" then
        save_jobs (JArr (<[ i := setitem job "state" (JStr "cancelled") ]> items));;
        print (Msg_cancelled_queued job_id)
      else if py_eq_str state "running" then
        try_except
          (pid ← getitem job "pid";
           os_kill pid SIGTERM;;
           save_jobs (JArr (<[ i := setitem job "state" (JStr "cancelled") ]> items));;
           print (Msg_cancelled_running job_id))
          (fun _ => pid ← getitem job "pid"; print (Msg_failed_to_kill pid))
      else print (Msg_cannot_cancel job_id state)
  end.

(** The outcomes the specification names, as the lines [cancel_job]
    prints. *)
Definition JobNotFound (job_id : string) : event := Printed (Msg_not_found job_id).
Definition CancelFailed (p : json) : event := Printed (Msg_failed_to_kill p).
Definition AlreadyTerminal (job_id : string) (s : json) : event :=
  Printed (Msg_cannot_cancel job_id s).

(* ===================================================================== *)
(** * The runner daemon                                                   *)
(* ===================================================================== *)

(** A scan pass works on the list object [jobs] it loaded: the loop body
    changes its dictionaries in place and saves the whole list. *)
Definition L (A : Type) : Type := M (list json * world) A.

Definition sys {A} (m : OS A) : L A := fun s =>
  let '(r, w') := m (snd s) in (r, (fst s, w')).

(** [job], the element of the list the loop is at. *)
Definition the_job (i : nat) : L json := fun s =>
  match fst s !! i with
  | Some j => (Ok j, s)
  | None => (Raise TypeError, s)
  end.

(** [job[key]] *)
Definition field (i : nat) (k : string) : L json := job ← the_job i; getitem job k.

(** [job.get(key, default)] *)
Definition field_or (i : nat) (k : string) (default : json) : L json :=
  job ← the_job i; get job k default.

(** [job[key] = value] *)
Definition update (i : nat) (k : string) (v : json) : L unit :=
  modify (fun s => (alter (fun job => setitem job k v) i (fst s), snd s)).

(** [save_jobs(jobs)] *)
Definition save : L unit := fun s => sys (save_jobs (JArr (fst s))) s.

(** Recover orphaned jobs; [true] is the [continue] of the loop. *)
Definition recover_orphan (i : nat) : L bool :=
  state ← field i "state";
  if py_eq_str state "running" then
    pid ← field_or i "pid" JNull;
    if py_truthy pid then
      try_except
        (pid ← field i "pid"; sys (os_kill pid SIG0);; mret false)
        (fun e =>
           if is_OSError e then
             id ← field i "id";
             sys (print (Msg_orphaned id));;
             update i "state" (JStr "failed");;
             t ← sys time_time;
             update i "end_time" (JFloat t);;
             save;;
             mret true
           else raise e)
    else mret false
  else mret false.

(** Start queued jobs. *)
Definition start_queued (i : nat) : L unit :=
  state ← field i "state";
  if py_eq_str state "queued" then
    id ← field i "id";
    name ← field i "name";
    sys (print (Msg_starting id name));;
    update i "state" (JStr "running");;
    t0 ← sys time_time;
    update i "start_time" (JFloat t0);;
    try_except
      (cmd ← field i "cmd";
       id ← field i "id";
       sys (open_log id ".out");;
       id ← field i "id";
       sys (open_log id ".err");;
       p ← sys (Popen cmd);
       update i "pid" (JNum p);;
       save;;
       ret ← sys (wait p);
       t1 ← sys time_time;
       update i "end_time" (JFloat t1);;
       update i "state" (JStr (if bool_decide (ret = 0%Z) then "finished" else "failed"));;
       id ← field i "id";
       sys (move_log id ".out");;
       id ← field i "id";
       sys (move_log id ".err");;
       save;;
       id ← field i "id";
       state ← field i "state";
       sys (print (Msg_done id state)))
      (fun e =>
         id ← field i "id";
         sys (print (Msg_failed_to_start id e));;
         update i "state" (JStr "failed");;
         t ← sys time_time;
         update i "end_time" (JFloat t);;
         save)
  else mret tt.

(** Check for timeouts. *)
Definition check_timeout (i : nat) : L unit :=
  state ← field i "state";
  if py_eq_str state "running" then
    started ← field_or i "start_time" JNull;
    if py_truthy started then
      t ← sys time_time;
      start ← field i "start_time";
      elapsed ← py_sub t start;
      timeout ← field_or i "timeout" (JNum TIMEOUT);
      over ← py_gt elapsed timeout;
      if over : bool then
        id ← field i "id";
        sys (print (Msg_timed_out id));;
        try_except (pid ← field i "pid"; sys (os_kill pid SIGKILL)) (fun _ => mret tt);;
        update i "state" (JStr "timeout");;
        t' ← sys time_time;
        update i "end_time" (JFloat t');;
        save
      else mret tt
    else mret tt
  else mret tt.

(** The body of [for job in jobs]. *)
Definition scan_job (i : nat) : L unit :=
  skip ← recover_orphan i;
  if skip : bool then mret tt
  else start_queued i;; check_timeout i.

Fixpoint for_each (indices : list nat) (body : nat -> L unit) : L unit :=
  match indices with
  | [] => mret tt
  | i :: rest => body i;; for_each rest body
  end.

(** One turn of [while True], up to the sleep: load the table and scan it
    in store order. *)
Definition scan_pass : OS unit := fun w =>
  match (jobs ← load_jobs; iter_of jobs) w with
  | (Ok items, w1) =>
      let '(r, s) := for_each (seq 0 (length items)) scan_job (items, w1) in
      (r, snd s)
  | (Raise e, w1) => (Raise e, w1)
  | (Blocked, w1) => (Blocked, w1)
  | (Unmodelled, w1) => (Unmodelled, w1)
  end.

(** The first [passes] turns of [while True], which itself is endless: only
    an exception leaves it. *)
Fixpoint daemon_loop (passes : nat) : OS unit :=
  match passes with
  | O => mret tt
  | S n => scan_pass;; time_sleep 2;; daemon_loop n
  end.

(** Job runner daemon, observed for [passes] turns of its loop. *)
Definition run_jobs (passes : nat) : OS unit :=
  print Msg_runner_started;;
  print Msg_press_ctrl_c;;
  daemon_loop passes.

(* ===================================================================== *)
(** * Vocabulary of the statements                                        *)
(* ===================================================================== *)

(** ** For the codec *)

(** What may follow the text of a number: not another digit, and no
    fraction or exponent. *)
Definition number_ends (rest : text) : Prop :=
  match rest with
  | [] => True
  | c :: _ =>
      digit_of c = None
      /\ N_of_ascii c <> 46%N /\ N_of_ascii c <> 101%N /\ N_of_ascii c <> 69%N
  end.

(** A number starts with a digit or a minus sign. *)
Definition number_start (c : ascii) : Prop :=
  N_of_ascii c = 45%N \/ (48 <= N_of_ascii c <= 57)%N.

(** The values that are Python objects: the keys of every dictionary are
    pairwise distinct. *)
Fixpoint well_formed (v : json) : bool :=
  match v with
  | JArr items => forallb well_formed items
  | JObj members =>
      bool_decide (NoDup (map fst members))
      && forallb (fun m => well_formed (snd m)) members
  | _ => true
  end.

(** No value starts with white space or a closing bracket. *)
Definition value_start (c : ascii) : Prop :=
  is_ws c = false /\ N_of_ascii c <> 93%N /\ N_of_ascii c <> 125%N.

(** What follows the opening bracket of a non-empty container. *)
Definition parts_text (cl : ascii) (lvl : nat) (p : text) (ps : list text) (rest : text) : text :=
  newline (S lvl) ++ p
    ++ concat (map (fun q => ","%char :: newline (S lvl) ++ q) ps)
    ++ newline lvl ++ cl :: rest.

(** One member of an object: the key, a colon, the value. *)
Definition member_text (lvl : nat) (m : string * json) : text :=
  quote (fst m) ++ ":"%char :: " "%char :: dump (S lvl) (snd m).

(** The three statements proved together, by induction on the fuel: the
    scanner reads back a value, the elements of a list, the members of an
    object. *)
Definition value_ok (fuel : nat) : Prop :=
  forall v lvl rest,
    length (dump lvl v) <= fuel -> well_formed v = true -> number_ends rest ->
    parse_value fuel (dump lvl v ++ rest) = Some (v, rest).

Definition elems_ok (fuel : nat) : Prop :=
  forall x xs lvl rest,
    length (parts_text "]"%char lvl (dump (S lvl) x) (map (dump (S lvl)) xs) []) <= fuel ->
    forallb well_formed (x :: xs) = true ->
    parse_elems fuel
      (parts_text "]"%char lvl (dump (S lvl) x) (map (dump (S lvl)) xs) rest)
    = Some (x :: xs, rest).

Definition members_ok (fuel : nat) : Prop :=
  forall m ms lvl rest,
    length (parts_text "}"%char lvl (member_text lvl m) (map (member_text lvl) ms) []) <= fuel ->
    forallb (fun m => well_formed (snd m)) (m :: ms) = true ->
    parse_members fuel
      (parts_text "}"%char lvl (member_text lvl m) (map (member_text lvl) ms) rest)
    = Some (m :: ms, rest).

(** The text of a number, from its parts: the digits before the point,
    those after it (none: no point) and the exponent, if any. *)
Definition frac_text (frac : list digit) : text :=
  match frac with
  | [] => []
  | _ => "."%char :: show_digits frac
  end.

Definition exp_text (e : option Z) : text :=
  match e with
  | Some e => "e"%char :: dump_exponent e
  | None => []
  end.

Definition number_text (int frac : list digit) (e : option Z) : text :=
  show_digits int ++ frac_text frac ++ exp_text e.

(** The text of a number starts with a digit, or with a minus sign and a
    digit. *)
Definition number_head (t : text) : Prop :=
  (exists d tl, t = digit_char d :: tl) \/ (exists d tl, t = "-"%char :: digit_char d :: tl).
(* ===================================================================== *)
(** * Job records                                                         *)
(* ===================================================================== *)

(** The dictionaries the program writes, as records: the nine keys of
    [submit_job], with the values the program gives them.  [None] is
    Python's [None] (JSON [null]) for [pid] and the time stamps; for
    [timeout] it says that the dictionary has no such key, the case
    [job.get('timeout', TIMEOUT)] provides for.  The program itself works on
    the dictionaries; the records serve the statements. *)
Record job : Type := Job {
  id : string;
  name : string;
  cmd : string;
  state : string;
  pid : option Z;
  submit_time : option float;
  start_time : option float;
  end_time : option float;
  timeout : option Z
}.

(** The states from which no transition leaves. *)
Definition terminal (s : string) : Prop :=
  s = "finished" \/ s = "failed" \/ s = "timeout" \/ s = "cancelled".

Definition opt_int (o : option Z) : json :=
  match o with Some n => JNum n | None => JNull end.

Definition opt_float (o : option float) : json :=
  match o with Some f => JFloat f | None => JNull end.

Definition job_to_json (j : job) : json :=
  JObj ([ ("id", JStr (id j)); ("name", JStr (name j)); ("cmd", JStr (cmd j));
          ("state", JStr (state j)); ("pid", opt_int (pid j));
          ("submit_time", opt_float (submit_time j));
          ("start_time", opt_float (start_time j));
          ("end_time", opt_float (end_time j)) ]
        ++ match timeout j with Some t => [("timeout", JNum t)] | None => [] end).

Definition table_to_json (t : list job) : json := JArr (map job_to_json t).

Definition get_str (k : string) (d : list (string * json)) : option string :=
  match dict_get k d with Some (JStr s) => Some s | _ => None end.

Definition get_opt_int (k : string) (d : list (string * json)) : option (option Z) :=
  match dict_get k d with
  | Some (JNum n) => Some (Some n)
  | Some JNull => Some None
  | _ => None
  end.

Definition get_opt_float (k : string) (d : list (string * json)) : option (option float) :=
  match dict_get k d with
  | Some (JFloat f) => Some (Some f)
  | Some JNull => Some None
  | _ => None
  end.

Definition get_timeout (d : list (string * json)) : option (option Z) :=
  match dict_get "timeout" d with
  | Some (JNum n) => Some (Some n)
  | None => Some None
  | _ => None
  end.

(** The record a dictionary stands for, when its values at the nine keys
    are of these types. *)
Definition job_of_json (v : json) : option job :=
  match v with
  | JObj d =>
      i ← get_str "id" d; n ← get_str "name" d; c ← get_str "cmd" d;
      s ← get_str "state" d; p ← get_opt_int "pid" d;
      t0 ← get_opt_float "submit_time" d; t1 ← get_opt_float "start_time" d;
      t2 ← get_opt_float "end_time" d; tm ← get_timeout d;
      Some (Job i n c s p t0 t1 t2 tm)
  | _ => None
  end.

(** The table a JSON value stands for, when it is a list of such
    dictionaries. *)
Definition as_table (v : json) : option (list job) :=
  match v with
  | JArr items => mapM job_of_json items
  | _ => None
  end.

(* ===================================================================== *)
(** * Vocabulary of the statements: the store                             *)
(* ===================================================================== *)

(** The node at [jobs/queue.json]. *)
Definition store_file (w : world) : node :=
  match disk w with
  | Some d => queue d
  | None => Absent
  end.

(** What [load_jobs] returns in a world: the value the store file holds,
    the empty list when there is no such value. *)
Definition loaded (w : world) : json :=
  match store_file w with
  | File c => match loads c with Some v => v | None => JArr [] end
  | _ => JArr []
  end.

(** The store can be replaced: [jobs/] exists, this user may create files
    in it, the disk has room, and [jobs/queue.json] is not a directory. *)
Definition writable (w : world) : Prop :=
  exists d, disk w = Some d /\ queue d <> Directory /\ access d = true /\ space d = true.

(** The world after a successful [save_jobs(data)]. *)
Definition after_save (data : json) (w : world) : world :=
  match disk w with
  | Some d =>
      log (Stored (now w) (dumps data))
        (set_disk (Some (StoreDir (File (dumps data)) (temps d) (running d) (finished d)
                                  (access d) (space d))) w)
  | None => w
  end.

(** The 8 characters [submit_job] takes from the next UUID of a world. *)
Definition next_id (w : world) : string :=
  slice 0 8 (uuid_str (uuid_int (entropy w (drawn w) mod 2 ^ 128)%N)).

(** ** Example machines *)

(** A whole number of seconds, as a float and as a time stamp. *)
Definition secs (n : Z) : float := float_of_Z n.

Definition at_secs (n : Z) : option float := Some (float_of_Z n).

(** What the shell does with the commands of the examples. *)
Definition sh (c : string) : behaviour :=
  if String.eqb c "sleep 100" then Exits (secs 100) 0
  else if String.eqb c "exit 7" then Exits (secs 1) 7
  else if String.eqb c "true" then Exits (secs 1) 0
  else if String.eqb c "cat" then Hangs
  else Exits (secs 1) 127.

(** A machine whose clock reads 1000 and whose next child gets pid 4242. *)
Definition machine (d : option store_dir) (ps : gmap Z process) (rnd : nat -> N) : world :=
  World (secs 1000) d ps 4242 sh rnd 0 [].

Definition zeros_source : nat -> N := fun _ => 0%N.

(** A random source whose draws differ in their leading bits. *)
Definition counting : nat -> N := fun k => (N.of_nat (S k) * 2 ^ 96)%N.

(** A [jobs/] directory with both log areas, room and access. *)
Definition jobs_dir (q : node) : store_dir := StoreDir q [] (Some ∅) (Some ∅) true true.

(** No store file yet. *)
Definition fresh_store : world := machine (Some (jobs_dir Absent)) ∅ zeros_source.

Definition job_a : job :=
  Job "0a1b2c3d" "build" "make -j4" "finished" (Some 311%Z) (at_secs 10) (at_secs 12)
      (at_secs 40) (Some 3600%Z).

Definition job_b : job :=
  Job "9e8f7a6b" "sleep 100" "sleep 100" "running" (Some 4100%Z) (at_secs 900) (at_secs 950)
      None (Some 60%Z).

Definition job_c : job :=
  Job "5c5c5c5c" "true" "true" "queued" None (at_secs 990) None None (Some 1%Z).

(** The float a decimal literal denotes. *)
Definition stamp (s : string) : option float :=
  match loads (chars s) with
  | Some (JFloat f) => Some f
  | _ => None
  end.

(** A record with time stamps as the clock gives them and text outside
    ASCII. *)
Definition job_d : job :=
  Job "d00dfeed" "résumé 😀" "printf '%s\n' naïve > out.txt"
      "failed" (Some 51234%Z) (stamp "1699999999.1234567") (stamp "1700000000.25")
      (stamp "1700000012.000001") None.

(** A store file cut short in the middle of its first record. *)
Definition truncated_text : text := take 40 (dumps (table_to_json [job_a; job_b])).

Definition truncated_store : world :=
  machine (Some (jobs_dir (File truncated_text))) ∅ zeros_source.

(** A store file this user may not read, and a directory in its place. *)
Definition locked_store : world :=
  machine (Some (jobs_dir (Locked (dumps (table_to_json [job_a; job_b]))))) ∅ zeros_source.

Definition directory_store : world := machine (Some (jobs_dir Directory)) ∅ zeros_source.

(** A store that holds the table [t]. *)
Definition store_of (t : list job) (ps : gmap Z process) : world :=
  machine (Some (jobs_dir (File (dumps (table_to_json t))))) ps counting.

(** The same store in a [jobs/] directory this user may not write to. *)
Definition read_only_store (t : list job) (ps : gmap Z process) : world :=
  machine (Some (StoreDir (File (dumps (table_to_json t))) [] (Some ∅) (Some ∅) false true))
          ps counting.

(** ** For sequences of submissions *)

(** The arguments of one call of [submit_job]. *)
Record request : Type := Request {
  req_command : string;
  req_name : option string;
  req_timeout : option Z
}.

(** The world after a sequence of [submit] commands, each a call of its own
    whose result, value or exception, ends with it. *)
Fixpoint submit_each (reqs : list request) (w : world) : world :=
  match reqs with
  | [] => w
  | r :: rest =>
      submit_each rest
        (snd (submit_job (req_command r) (req_name r) (req_timeout r) w))
  end.

(** The ids of the next [n] submissions of a world. *)
Definition next_ids (n : nat) (w : world) : list string :=
  map (fun k => slice 0 8 (uuid_str (uuid_int (entropy w (drawn w + k) mod 2 ^ 128)%N)))
      (seq 0 n).

(** A random source whose first two draws differ and share their leading
    32 bits. *)
Definition close_draws : nat -> N :=
  fun k => (0x5eed5eed000000000000000000000000 + N.of_nat k)%N.

Definition colliding_store : world := machine (Some (jobs_dir Absent)) ∅ close_draws.
(* ===================================================================== *)
(** * Vocabulary of the statements: cancel and the runner daemon          *)
(* ===================================================================== *)

(** The members of a dictionary. *)
Definition members (v : json) : list (string * json) :=
  match v with
  | JObj d => d
  | _ => []
  end.

(** The table the store file holds, if it holds one. *)
Definition stored_table (w : world) : option (list job) :=
  match store_file w with
  | File c => match loads c with Some v => as_table v | None => None end
  | _ => None
  end.

(** The saves of a trace, oldest first: when, and the id and state of each
    record saved. *)
Definition snapshot (c : text) : list (string * string) :=
  match loads c with
  | Some v =>
      match as_table v with
      | Some t => map (fun j => (id j, state j)) t
      | None => []
      end
  | None => []
  end.

Fixpoint history (tr : list event) : list (float * list (string * string)) :=
  match tr with
  | [] => []
  | Stored t c :: rest => (t, snapshot c) :: history rest
  | _ :: rest => history rest
  end.

(** The signals of a trace other than probes. *)
Fixpoint kills (tr : list event) : list (Z * signal) :=
  match tr with
  | [] => []
  | Signalled p SIG0 :: rest => kills rest
  | Signalled p s :: rest => (p, s) :: kills rest
  | _ :: rest => kills rest
  end.

(** The lines printed in a trace, and the commands launched. *)
Fixpoint printed (tr : list event) : list message :=
  match tr with
  | [] => []
  | Printed m :: rest => m :: printed rest
  | _ :: rest => printed rest
  end.

Fixpoint spawned (tr : list event) : list (string * Z) :=
  match tr with
  | [] => []
  | Spawned c p :: rest => (c, p) :: spawned rest
  | _ :: rest => spawned rest
  end.

(** A queued job with a timeout of 1 whose command runs for 100. *)
Definition slow_job : job :=
  Job "51035103" "sleep 100" "sleep 100" "queued" None (at_secs 990) None None (Some 1%Z).

(** A queued job with a timeout of 1 whose command never exits. *)
Definition stuck_job : job :=
  Job "57c457c4" "cat" "cat" "queued" None (at_secs 990) None None (Some 1%Z).

(** A queued job whose command exits with code 0 after 1. *)
Definition quick_job : job :=
  Job "901c901c" "true" "true" "queued" None (at_secs 990) None None (Some 3600%Z).

(** A queued job whose command exits with code 7 after 1. *)
Definition failing_job : job :=
  Job "fa11fa11" "exit 7" "exit 7" "queued" None (at_secs 990) None None (Some 3600%Z).

(** A store that holds [t], with the area of running logs and without the
    area of finished logs. *)
Definition store_without_finished (t : list job) : world :=
  machine (Some (StoreDir (File (dumps (table_to_json t))) [] (Some ∅) None true true))
          ∅ counting.


(** A record found [running], started at 950 with a timeout of 30. *)
Definition overdue_job : job :=
  Job "ad0bad0b" "sleep 100" "sleep 100" "running" (Some 4100%Z) (at_secs 900) (at_secs 950)
      None (Some 30%Z).
(* ===================================================================== *)
(** * The codec reads back what it writes                                 *)
(* ===================================================================== *)

(** ** Digits and integers *)

Lemma digit_of_char d : digit_of (digit_char d) = Some d.
Proof. destruct d; reflexivity. Qed.

(** What follows a run of digits is no digit. *)
Lemma scan_digits_show ds rest :
  match rest with [] => True | c :: _ => digit_of c = None end ->
  scan_digits (show_digits ds ++ rest) = (ds, rest).
Proof.
  intros Hr. induction ds as [|d ds IH].
  - cbn. destruct rest as [|c r]; [reflexivity|]. cbn [scan_digits]. rewrite Hr. reflexivity.
  - cbn [show_digits map app scan_digits]. rewrite digit_of_char.
    change (map digit_char ds) with (show_digits ds). rewrite IH. reflexivity.
Qed.

Lemma number_ends_no_digit rest :
  number_ends rest -> match rest with [] => True | c :: _ => digit_of c = None end.
Proof. destruct rest; [auto|]. intros H. apply H. Qed.

Lemma uint_of_digits_of u : uint_of_digits (digits_of_uint u) = u.
Proof. induction u; cbn; rewrite ?IHu; reflexivity. Qed.

Lemma N_of_digits_of n : N_of_digits (digits_of_N n) = n.
Proof.
  unfold N_of_digits, digits_of_N. rewrite uint_of_digits_of.
  apply DecimalN.Unsigned.of_to.
Qed.

Lemma to_uint_normal n : Decimal.unorm (N.to_uint n) = N.to_uint n.
Proof.
  rewrite <- (DecimalN.Unsigned.of_to n) at 2.
  rewrite DecimalN.Unsigned.to_of. reflexivity.
Qed.

Lemma int_part_ok_normal u :
  Decimal.unorm u = u -> int_part_ok (digits_of_uint u) = true.
Proof.
  intros H. destruct u as [|u| | | | | | | | |]; try reflexivity.
  - discriminate H.
  - destruct u as [|u| | | | | | | | |]; try reflexivity; try discriminate H.
    exfalso. pose proof (DecimalFacts.nb_digits_unorm (Decimal.D0 (Decimal.D0 u))) as Hn.
    rewrite H in Hn. cbn in Hn. specialize (Hn ltac:(discriminate)).
    change (Decimal.unorm (Decimal.D0 (Decimal.D0 u)))
      with (Decimal.unorm (Decimal.D0 u)) in H.
    pose proof (DecimalFacts.nb_digits_unorm (Decimal.D0 u) ltac:(discriminate)) as Hm.
    rewrite H in Hm. cbn in Hm. lia.
Qed.

Lemma int_part_ok_N n : int_part_ok (digits_of_N n) = true.
Proof. apply int_part_ok_normal, to_uint_normal. Qed.

Lemma parse_frac_none rest : number_ends rest -> parse_frac rest = Some ([], rest).
Proof.
  destruct rest as [|c r]; [reflexivity|]. intros (_ & H & _). unfold parse_frac.
  apply N.eqb_neq in H. rewrite H. reflexivity.
Qed.

Lemma parse_exp_none rest : number_ends rest -> parse_exp rest = Some (None, rest).
Proof.
  destruct rest as [|c r]; [reflexivity|]. intros (_ & _ & H1 & H2). unfold parse_exp.
  apply N.eqb_neq in H1, H2. rewrite H1, H2. reflexivity.
Qed.

Lemma parse_unsigned_nat neg n rest :
  number_ends rest ->
  parse_unsigned neg (dump_nat n ++ rest)
  = Some (JNum (if neg then (- Z.of_N n)%Z else Z.of_N n), rest).
Proof.
  intros Hr. unfold parse_unsigned, dump_nat.
  rewrite (scan_digits_show _ _ (number_ends_no_digit _ Hr)).
  rewrite int_part_ok_N, (parse_frac_none _ Hr), (parse_exp_none _ Hr), N_of_digits_of.
  reflexivity.
Qed.

Lemma digits_of_N_head n :
  exists d ds, digits_of_N n = d :: ds.
Proof.
  pose proof (int_part_ok_N n) as H. destruct (digits_of_N n) as [|d ds]; [discriminate|eauto].
Qed.

Lemma digit_char_not_minus d : (N_of_ascii (digit_char d) =? 45)%N = false.
Proof. destruct d; reflexivity. Qed.

Lemma parse_number_int z rest :
  number_ends rest -> parse_number (dump_int z ++ rest) = Some (JNum z, rest).
Proof.
  intros Hr. unfold dump_int. destruct (Z.ltb_spec z 0) as [Hneg|Hpos].
  - cbn [app parse_number]. change (N_of_ascii "-" =? 45)%N with true. cbn iota.
    rewrite (parse_unsigned_nat true _ _ Hr). do 3 f_equal. lia.
  - unfold parse_number. pose proof (parse_unsigned_nat false (Z.abs_N z) rest Hr) as H.
    unfold dump_nat in *. destruct (digits_of_N_head (Z.abs_N z)) as (d & ds & E).
    rewrite E in *. cbn [show_digits map app] in *. rewrite digit_char_not_minus.
    rewrite H. do 3 f_equal. lia.
Qed.
(** ** Floats *)

Lemma nonzero_nz d : nonzero (nz d) = Some d.
Proof. destruct d; reflexivity. Qed.

Lemma is_zero_nz d : is_zero (nz d) = false.
Proof. destruct d; reflexivity. Qed.

Lemma split_last_app d m l : split_last d (m ++ [l]) = (d :: m, l).
Proof.
  revert d. induction m as [|e m IH]; intros d; [reflexivity|].
  cbn [app split_last]. rewrite IH. reflexivity.
Qed.

Lemma significand_of_digits s : significand_of (digits_of s) = Some s.
Proof.
  destruct s as [d|f m l]; cbn [digits_of significand_of]; rewrite nonzero_nz; [reflexivity|].
  destruct m as [|e m]; cbn [app].
  - cbn. rewrite nonzero_nz. reflexivity.
  - rewrite split_last_app, nonzero_nz. reflexivity.
Qed.

Lemma digits_of_head s : exists f r, digits_of s = nz f :: r.
Proof. destruct s as [d|f m l]; cbn; eauto. Qed.

Lemma strip_leading_head f r : strip_leading (nz f :: r) = nz f :: r.
Proof. cbn. rewrite is_zero_nz. reflexivity. Qed.

Lemma strip_leading_zeros k ds : strip_leading (zeros k ++ ds) = strip_leading ds.
Proof. induction k as [|k IH]; [reflexivity|]. cbn. exact IH. Qed.

Lemma strip_trailing_only_zeros k : strip_trailing (zeros k) = [].
Proof. induction k as [|k IH]; [reflexivity|]. cbn. fold (zeros k). rewrite IH. reflexivity. Qed.

Lemma strip_trailing_zeros ds k : strip_trailing (ds ++ zeros k) = strip_trailing ds.
Proof.
  induction ds as [|d ds IH]; cbn [app strip_trailing].
  - apply strip_trailing_only_zeros.
  - rewrite IH. reflexivity.
Qed.

Lemma strip_trailing_last m l : strip_trailing (m ++ [nz l]) = m ++ [nz l].
Proof.
  induction m as [|d m IH]; cbn [app strip_trailing].
  - cbn. rewrite is_zero_nz. reflexivity.
  - rewrite IH. destruct (m ++ [nz l]) eqn:E; [|reflexivity].
    destruct m; discriminate E.
Qed.

Lemma strip_trailing_digits s : strip_trailing (digits_of s) = digits_of s.
Proof.
  destruct s as [d|f m l]; cbn [digits_of].
  - apply (strip_trailing_last [] d).
  - apply (strip_trailing_last (nz f :: m) l).
Qed.

(** The float of a number text whose digits are the significand between
    [lz] leading and [tz] trailing zeros. *)
Lemma make_float_digits neg int frac e s lz tz :
  int ++ frac = zeros lz ++ digits_of s ++ zeros tz ->
  make_float neg int frac e = FDec neg s (Z.of_nat (length int) - Z.of_nat lz + e).
Proof.
  intros H. unfold make_float. rewrite H, strip_leading_zeros.
  destruct (digits_of_head s) as (f & r & E).
  assert (Hs : strip_leading (digits_of s ++ zeros tz) = digits_of s ++ zeros tz).
  { rewrite E. apply strip_leading_head. }
  rewrite Hs, strip_trailing_zeros, strip_trailing_digits, significand_of_digits.
  f_equal. rewrite length_app. unfold zeros at 1. rewrite repeat_length.
  replace (lz + length (digits_of s ++ zeros tz) - length (digits_of s ++ zeros tz)) with lz by lia.
  reflexivity.
Qed.

Lemma N_of_digits_zero ds : N_of_digits (Dg0 :: ds) = N_of_digits ds.
Proof. reflexivity. Qed.

Lemma parse_exp_dump e rest :
  match rest with [] => True | c :: _ => digit_of c = None end ->
  parse_exp ("e"%char :: dump_exponent e ++ rest) = Some (Some e, rest).
Proof.
  intros Hr. unfold parse_exp, dump_exponent.
  change (N_of_ascii "e" =? 101)%N with true. cbn [orb app].
  assert (Hscan : forall n, exists ds,
            (if (n <? 10)%N then "0"%char :: dump_nat n else dump_nat n) = show_digits ds
            /\ ds <> [] /\ N_of_digits ds = n).
  { intros n. destruct (n <? 10)%N.
    - exists (Dg0 :: digits_of_N n). split; [reflexivity|]. split; [discriminate|].
      rewrite N_of_digits_zero. apply N_of_digits_of.
    - exists (digits_of_N n). split; [reflexivity|]. split; [|apply N_of_digits_of].
      destruct (digits_of_N_head n) as (d & ds & E). rewrite E. discriminate. }
  destruct (Hscan (Z.abs_N e)) as (ds & -> & Hne & Hval).
  destruct (Z.ltb_spec e 0) as [Hneg|Hpos].
  - change (N_of_ascii "-" =? 45)%N with true. cbn iota.
    rewrite (scan_digits_show _ _ Hr). destruct ds; [congruence|].
    rewrite Hval. do 3 f_equal. lia.
  - change (N_of_ascii "+" =? 45)%N with false. change (N_of_ascii "+" =? 43)%N with true.
    cbn iota. rewrite (scan_digits_show _ _ Hr). destruct ds; [congruence|].
    rewrite Hval. do 3 f_equal. lia.
Qed.

(** The scanner on the text of a number with a fraction or an exponent. *)
Lemma parse_unsigned_float neg int frac e rest :
  int_part_ok int = true -> frac <> [] \/ e <> None -> number_ends rest ->
  parse_unsigned neg (number_text int frac e ++ rest)
  = Some (JFloat (make_float neg int frac (default 0%Z e)), rest).
Proof.
  intros Hint Hfloat Hr. unfold parse_unsigned, number_text.
  pose proof (number_ends_no_digit _ Hr) as Hnd.
  assert (Hexp : parse_exp (exp_text e ++ rest) = Some (e, rest)).
  { destruct e as [e|]; [apply parse_exp_dump, Hnd|apply parse_exp_none, Hr]. }
  assert (Hexp_head : match exp_text e ++ rest with
                      | [] => True
                      | c :: _ => digit_of c = None /\ N_of_ascii c <> 46%N
                      end).
  { destruct e as [e|]; cbn [exp_text app].
    - split; [reflexivity|discriminate].
    - destruct rest as [|c r]; [exact I|]. destruct Hr as (H1 & H2 & _). auto. }
  assert (Hfrac : parse_frac (frac_text frac ++ exp_text e ++ rest)
                  = Some (frac, exp_text e ++ rest)).
  { destruct frac as [|d ds].
    - cbn [frac_text app]. destruct (exp_text e ++ rest) as [|c r]; [reflexivity|].
      unfold parse_frac. destruct Hexp_head as [_ H]. apply N.eqb_neq in H. rewrite H.
      reflexivity.
    - cbn [frac_text app]. unfold parse_frac. change (N_of_ascii "." =? 46)%N with true.
      cbn iota. rewrite scan_digits_show; [reflexivity|].
      destruct (exp_text e ++ rest); [exact I|apply Hexp_head]. }
  rewrite <- !app_assoc. rewrite scan_digits_show.
  - rewrite Hint, Hfrac, Hexp.
    destruct frac as [|d ds]; [|reflexivity].
    destruct e as [e|]; [reflexivity|]. destruct Hfloat; congruence.
  - destruct frac as [|d ds]; cbn [frac_text app]; [|reflexivity].
    destruct (exp_text e ++ rest); [exact I|apply Hexp_head].
Qed.

Lemma int_part_ok_head f r : int_part_ok (nz f :: r) = true.
Proof. destruct f; reflexivity. Qed.

Lemma zeros_snoc k : zeros k ++ [Dg0] = zeros (S k).
Proof. unfold zeros. induction k as [|k IH]; [reflexivity|]. cbn. cbn in IH. rewrite IH. reflexivity. Qed.

Lemma frac_text_cons frac : frac <> [] -> frac_text frac = "."%char :: show_digits frac.
Proof. destruct frac; [congruence|reflexivity]. Qed.

(** The text [repr] gives a float other than zero, in its parts. *)
Lemma dump_dec_shape s decpt :
  exists int frac e lz tz,
    dump_dec s decpt = number_text int frac e
    /\ int_part_ok int = true
    /\ (frac <> [] \/ e <> None)
    /\ int ++ frac = zeros lz ++ digits_of s ++ zeros tz
    /\ (Z.of_nat (length int) - Z.of_nat lz + default 0 e)%Z = decpt.
Proof.
  unfold dump_dec. destruct (digits_of_head s) as (f & r & E). rewrite E.
  set (ds := nz f :: r) in *.
  destruct ((decpt <? -3) || (16 <? decpt))%Z eqn:Hsci.
  { (* scientific *)
    subst ds. destruct r as [|d r].
    - exists [nz f], [], (Some (decpt - 1)%Z), 0, 0. split; [reflexivity|].
      split; [apply int_part_ok_head|]. split; [right; discriminate|].
      split; [reflexivity|]. cbn. lia.
    - exists [nz f], (d :: r), (Some (decpt - 1)%Z), 0, 0. split; [reflexivity|].
      split; [apply int_part_ok_head|]. split; [left; discriminate|].
      split; [cbn; rewrite app_nil_r; reflexivity|]. cbn. lia. }
  destruct (Z.leb_spec decpt 0) as [Hle|Hpos].
  { (* 0.000ddd *)
    exists [Dg0], (zeros (Z.to_nat (- decpt)) ++ ds), None, (S (Z.to_nat (- decpt))), 0.
    assert (Hne : zeros (Z.to_nat (- decpt)) ++ ds <> []).
    { subst ds. destruct (zeros (Z.to_nat (- decpt))); discriminate. }
    split; [|split; [reflexivity|split; [left; exact Hne|split]]].
    - unfold number_text. rewrite (frac_text_cons _ Hne). cbn [exp_text]. rewrite app_nil_r.
      reflexivity.
    - rewrite app_nil_r. reflexivity.
    - cbn [length default]. lia. }
  destruct (Z.ltb_spec decpt (Z.of_nat (length ds))) as [Hlt|Hge].
  { (* ddd.ddd *)
    exists (take (Z.to_nat decpt) ds), (drop (Z.to_nat decpt) ds), None, 0, 0.
    assert (Hne : drop (Z.to_nat decpt) ds <> []).
    { intros H. apply (f_equal length) in H. rewrite length_drop in H. cbn [length] in H. lia. }
    split; [|split; [|split; [left; exact Hne|split]]].
    - unfold number_text. rewrite (frac_text_cons _ Hne). cbn [exp_text]. rewrite app_nil_r.
      reflexivity.
    - subst ds. destruct (Z.to_nat decpt) as [|p] eqn:Ep; [lia|]. cbn [take].
      apply int_part_ok_head.
    - rewrite take_drop, app_nil_r. reflexivity.
    - rewrite length_take. cbn [default]. lia. }
  (* ddd000.0 *)
  exists (ds ++ zeros (Z.to_nat (decpt - Z.of_nat (length ds)))), [Dg0], None, 0,
         (S (Z.to_nat (decpt - Z.of_nat (length ds)))).
  split; [|split; [|split; [left; discriminate|split]]].
  - unfold number_text. cbn [frac_text exp_text show_digits map]. rewrite app_nil_r.
    reflexivity.
  - subst ds. cbn [app]. apply int_part_ok_head.
  - rewrite <- app_assoc, zeros_snoc. reflexivity.
  - rewrite length_app. unfold zeros. rewrite repeat_length. cbn [default]. lia.
Qed.

Lemma number_text_head int frac e :
  int_part_ok int = true ->
  exists d t, number_text int frac e = digit_char d :: t.
Proof.
  destruct int as [|d ds]; [discriminate|]. intros _. unfold number_text. cbn. eauto.
Qed.

(** A finite float is read back from its [repr]. *)
Lemma parse_number_float f rest :
  match f with FZero _ | FDec _ _ _ => True | _ => False end ->
  number_ends rest ->
  parse_number (dump_float f ++ rest) = Some (JFloat f, rest).
Proof.
  intros Hfin Hr.
  assert (Hgen : forall neg int frac e,
            int_part_ok int = true -> frac <> [] \/ e <> None ->
            parse_number (dump_sign neg (number_text int frac e) ++ rest)
            = Some (JFloat (make_float neg int frac (default 0%Z e)), rest)).
  { intros neg int frac e Hint Hfl. destruct neg; cbn [dump_sign].
    - cbn [app parse_number]. change (N_of_ascii "-" =? 45)%N with true. cbn iota.
      apply parse_unsigned_float; assumption.
    - pose proof (parse_unsigned_float false int frac e rest Hint Hfl Hr) as H.
      destruct (number_text_head int frac e Hint) as (d & t & E). rewrite E in *.
      cbn [app parse_number]. rewrite digit_char_not_minus. exact H. }
  destruct f as [neg|neg s decpt| |]; try contradiction.
  - cbn [dump_float]. change (chars "0.0") with (number_text [Dg0] [Dg0] None).
    rewrite Hgen; [reflexivity|reflexivity|left; discriminate].
  - destruct (dump_dec_shape s decpt) as (int & frac & e & lz & tz & Ht & Hint & Hfl & Hds & Hp).
    cbn [dump_float]. rewrite Ht, (Hgen neg int frac e Hint Hfl).
    rewrite (make_float_digits neg int frac _ s lz tz Hds), Hp. reflexivity.
Qed.
(** ** Strings *)

Ltac n_arith :=
  repeat match goal with
         | H : (_ <? _)%N = true |- _ => apply N.ltb_lt in H
         | H : (_ <? _)%N = false |- _ => apply N.ltb_ge in H
         | H : (_ <=? _)%N = true |- _ => apply N.leb_le in H
         | H : (_ <=? _)%N = false |- _ => apply N.leb_gt in H
         | H : (_ && _) = true |- _ => apply andb_prop in H; destruct H
         | H : (_ || _) = false |- _ => apply orb_false_elim in H; destruct H
         end;
  Zify.zify; Z.div_mod_to_equations; lia.

Lemma hex_val_char d : (d < 16)%N -> hex_val (hex_char d) = Some d.
Proof.
  intros H. assert (Hd : In d (map N.of_nat (seq 0 16))).
  { apply in_map_iff. exists (N.to_nat d). split; [lia|]. apply in_seq. lia. }
  cbn in Hd. repeat (destruct Hd as [<-|Hd]; [reflexivity|]). destruct Hd.
Qed.

Lemma hex4_digits u :
  (u < 65536)%N ->
  hex4 (hex_char (u / 4096)) (hex_char ((u / 256) mod 16)) (hex_char ((u / 16) mod 16))
       (hex_char (u mod 16)) = Some u.
Proof.
  intros H. unfold hex4.
  change 4096%N with (16 * 16 * 16)%N. change 256%N with (16 * 16)%N.
  rewrite <- !N.Div0.div_div.
  pose proof (N.div_mod u 16 ltac:(discriminate)) as H0.
  pose proof (N.div_mod (u / 16) 16 ltac:(discriminate)) as H1.
  pose proof (N.div_mod (u / 16 / 16) 16 ltac:(discriminate)) as H2.
  pose proof (N.mod_lt u 16 ltac:(discriminate)).
  pose proof (N.mod_lt (u / 16) 16 ltac:(discriminate)).
  pose proof (N.mod_lt (u / 16 / 16) 16 ltac:(discriminate)).
  set (a := (u mod 16)%N) in *. set (u1 := (u / 16)%N) in *.
  set (b := (u1 mod 16)%N) in *. set (u2 := (u1 / 16)%N) in *.
  set (c := (u2 mod 16)%N) in *. set (u3 := (u2 / 16)%N) in *.
  rewrite !hex_val_char by lia. f_equal. lia.
Qed.

Lemma parse_u_step a b x y tl :
  parse_string_body 0 ("\"%char :: "u"%char :: a :: b :: x :: y :: tl)
  = match hex4 a b x y with
    | Some u =>
        match (if is_high u then low_escape tl else None), tl with
        | Some l, _ :: _ :: _ :: _ :: _ :: _ :: r3 =>
            prepend (encode (65536 + (u - 55296) * 1024 + (l - 56320))%N)
                    (parse_string_body 0 r3)
        | _, _ => prepend (unit_bytes u) (parse_string_body 0 tl)
        end
    | None => None
    end.
Proof. reflexivity. Qed.

(** A code unit that is no first half of a pair. *)
Lemma parse_u_escape u tl :
  (u < 65536)%N -> is_high u = false ->
  parse_string_body 0 (u_escape u ++ tl) = prepend (unit_bytes u) (parse_string_body 0 tl).
Proof.
  intros Hu Hh. unfold u_escape. cbn [app].
  rewrite parse_u_step, (hex4_digits u Hu), Hh. reflexivity.
Qed.

(** A surrogate pair. *)
Lemma parse_u_pair hi lo tl :
  (hi < 65536)%N -> (lo < 65536)%N -> is_high hi = true -> is_low lo = true ->
  parse_string_body 0 (u_escape hi ++ u_escape lo ++ tl)
  = prepend (encode (65536 + (hi - 55296) * 1024 + (lo - 56320))%N)
            (parse_string_body 0 tl).
Proof.
  intros Hhi Hlo Hh Hl. unfold u_escape at 1. cbn [app].
  rewrite parse_u_step, (hex4_digits hi Hhi), Hh.
  unfold u_escape. cbn [app]. unfold low_escape.
  change (N_of_ascii "\" =? 92)%N with true. change (N_of_ascii "u" =? 117)%N with true.
  cbn [andb]. rewrite (hex4_digits lo Hlo), Hl. reflexivity.
Qed.

Lemma split64 a x :
  (x < 64)%N -> ((a * 64 + x) / 64 = a /\ (a * 64 + x) mod 64 = x)%N.
Proof.
  intros H. split.
  - symmetry. apply (N.div_unique _ _ _ x); lia.
  - symmetry. apply (N.mod_unique _ _ a); lia.
Qed.

Lemma continuation_spec b x :
  continuation b = Some x -> (x < 64)%N /\ ascii_of_N (128 + x) = b.
Proof.
  unfold continuation. destruct ((128 <=? N_of_ascii b) && (N_of_ascii b <? 192))%N eqn:E;
    [|discriminate].
  intros H. injection H as <-. apply andb_prop in E as [E1 E2].
  apply N.leb_le in E1. apply N.ltb_lt in E2. split; [lia|].
  replace (128 + (N_of_ascii b - 128))%N with (N_of_ascii b) by lia.
  apply ascii_N_embedding.
Qed.

(** A UTF-8 sequence is the encoding of its code point. *)
Lemma decode1_spec c r cp k :
  decode1 c r = Some (cp, k) ->
  k <= length r /\ encode cp = c :: take k r
  /\ (128 <= cp < 1114112)%N /\ is_surrogate cp = false.
Proof.
  unfold decode1. pose proof (ascii_N_embedding c) as Hc.
  set (n := N_of_ascii c) in *.
  destruct (N.ltb_spec n 194) as [|H194]; [discriminate|].
  destruct (N.ltb_spec n 224) as [H224|H224].
  { destruct r as [|b1 r]; [discriminate|].
    destruct (continuation b1) as [x1|] eqn:E1; [|discriminate].
    intros H. injection H as <- <-.
    destruct (continuation_spec _ _ E1) as [Hx1 Hb1].
    destruct (split64 (n - 192) x1 Hx1) as [Hd Hm].
    split; [cbn; lia|]. split; [|split].
    - unfold encode.
      destruct (N.ltb_spec ((n - 192) * 64 + x1) 128); [lia|].
      destruct (N.ltb_spec ((n - 192) * 64 + x1) 2048); [|lia].
      rewrite Hd, Hm, Hb1. replace (192 + (n - 192))%N with n by lia.
      rewrite Hc. reflexivity.
    - lia.
    - unfold is_surrogate. apply andb_false_iff. left. apply N.leb_gt. lia. }
  destruct (N.ltb_spec n 240) as [H240|H240].
  { destruct r as [|b1 [|b2 r]]; try discriminate.
    destruct (continuation b1) as [x1|] eqn:E1; [|discriminate].
    destruct (continuation b2) as [x2|] eqn:E2; [|discriminate].
    destruct (continuation_spec _ _ E1) as [Hx1 Hb1].
    destruct (continuation_spec _ _ E2) as [Hx2 Hb2].
    set (cp0 := (((n - 224) * 64 + x1) * 64 + x2)%N).
    destruct (N.ltb_spec cp0 2048) as [|Hlo]; [discriminate|].
    destruct (is_surrogate cp0) eqn:Hs; [discriminate|]. cbn [orb].
    intros H. injection H as <- <-.
    destruct (split64 ((n - 224) * 64 + x1) x2 Hx2) as [Hd Hm].
    destruct (split64 (n - 224) x1 Hx1) as [Hd' Hm'].
    split; [cbn; lia|]. split; [|split; [|exact Hs]].
    - unfold encode.
      destruct (N.ltb_spec cp0 128); [lia|].
      destruct (N.ltb_spec cp0 2048); [lia|].
      destruct (N.ltb_spec cp0 65536); [|subst cp0; lia].
      change 4096%N with (64 * 64)%N. rewrite <- N.Div0.div_div.
      subst cp0. rewrite Hd, Hm, Hd', Hm', Hb1, Hb2.
      replace (224 + (n - 224))%N with n by lia. rewrite Hc. reflexivity.
    - subst cp0. lia. }
  destruct (N.ltb_spec n 245) as [H245|H245]; [|discriminate].
  destruct r as [|b1 [|b2 [|b3 r]]]; try discriminate.
  destruct (continuation b1) as [x1|] eqn:E1; [|discriminate].
  destruct (continuation b2) as [x2|] eqn:E2; [|discriminate].
  destruct (continuation b3) as [x3|] eqn:E3; [|discriminate].
  destruct (continuation_spec _ _ E1) as [Hx1 Hb1].
  destruct (continuation_spec _ _ E2) as [Hx2 Hb2].
  destruct (continuation_spec _ _ E3) as [Hx3 Hb3].
  set (cp0 := ((((n - 240) * 64 + x1) * 64 + x2) * 64 + x3)%N).
  destruct (N.ltb_spec cp0 65536) as [|Hlo]; [discriminate|].
  destruct (N.ltb_spec 1114111 cp0) as [|Hhi]; [discriminate|]. cbn [orb].
  intros H. injection H as <- <-.
  destruct (split64 (((n - 240) * 64 + x1) * 64 + x2) x3 Hx3) as [Hd Hm].
  destruct (split64 ((n - 240) * 64 + x1) x2 Hx2) as [Hd' Hm'].
  destruct (split64 (n - 240) x1 Hx1) as [Hd'' Hm''].
  split; [cbn; lia|]. split; [|split].
  - unfold encode.
    destruct (N.ltb_spec cp0 128); [lia|].
    destruct (N.ltb_spec cp0 2048); [lia|].
    destruct (N.ltb_spec cp0 65536); [lia|].
    change 262144%N with (64 * 64 * 64)%N. change 4096%N with (64 * 64)%N.
    rewrite <- !N.Div0.div_div.
    subst cp0. rewrite Hd, Hm, Hd', Hm', Hd'', Hm'', Hb1, Hb2, Hb3.
    replace (240 + (n - 240))%N with n by lia. rewrite Hc. reflexivity.
  - lia.
  - unfold is_surrogate. apply andb_false_iff. right. apply N.ltb_ge. lia.
Qed.

Lemma parse_escape_ascii c tl :
  (N_of_ascii c < 128)%N ->
  parse_string_body 0 (escape_char c ++ tl) = prepend [c] (parse_string_body 0 tl).
Proof.
  destruct c as [[] [] [] [] [] [] [] []]; intros H; try reflexivity;
    exfalso; vm_compute in H; discriminate H.
Qed.

Lemma escape_bytes_skip k r :
  k <= length r -> escape_bytes k r = escape_bytes 0 (drop k r).
Proof.
  revert r. induction k as [|k IH]; intros r Hk; [reflexivity|].
  destruct r as [|c r]; [cbn in Hk; lia|]. cbn [escape_bytes drop]. apply IH. cbn in Hk. lia.
Qed.

Lemma prepend_some t s rest : prepend t (Some (s, rest)) = Some (t ++ s, rest).
Proof. reflexivity. Qed.

(** The scanner reads back the escapes of any string of bytes. *)
Lemma parse_escape_bytes n s rest :
  length s <= n ->
  parse_string_body 0 (escape_bytes 0 s ++ "034"%char :: rest) = Some (s, rest).
Proof.
  revert s. induction n as [|n IH]; intros s Hn.
  { destruct s; [reflexivity|cbn in Hn; lia]. }
  destruct s as [|c r]; [reflexivity|]. cbn in Hn. cbn [escape_bytes].
  destruct (N.ltb_spec (N_of_ascii c) 128) as [Hascii|Hhigh].
  { rewrite <- app_assoc, (parse_escape_ascii _ _ Hascii), IH by lia. reflexivity. }
  destruct (decode1 c r) as [[cp k]|] eqn:Hdec.
  - destruct (decode1_spec _ _ _ _ Hdec) as (Hk & Henc & [Hlo Hhi] & Hsur).
    rewrite (escape_bytes_skip _ _ Hk), <- app_assoc.
    assert (Hparse : forall tl, parse_string_body 0 (escape_cp cp ++ tl)
                                = prepend (encode cp) (parse_string_body 0 tl)).
    { intros tl. unfold escape_cp. destruct (N.ltb_spec cp 65536) as [Hbmp|Hastral].
      - rewrite parse_u_escape; [|exact Hbmp|].
        + unfold unit_bytes. unfold is_surrogate in Hsur.
          destruct ((56448 <=? cp) && (cp <? 56576))%N eqn:E; [|reflexivity].
          exfalso. apply andb_prop in E as [E1 E2]. apply N.leb_le in E1.
          apply N.ltb_lt in E2. apply andb_false_iff in Hsur as [Hs|Hs];
            [apply N.leb_gt in Hs|apply N.ltb_ge in Hs]; lia.
        + unfold is_high. unfold is_surrogate in Hsur.
          apply andb_false_iff. apply andb_false_iff in Hsur as [Hs|Hs].
          * left. exact Hs.
          * right. apply N.ltb_ge in Hs. apply N.ltb_ge. lia.
      - pose proof (N.div_mod (cp - 65536) 1024 ltac:(discriminate)) as Hdm.
        pose proof (N.mod_lt (cp - 65536) 1024 ltac:(discriminate)) as Hml.
        assert (Hq : ((cp - 65536) / 1024 < 1024)%N).
        { apply N.Div0.div_lt_upper_bound. lia. }
        set (q := ((cp - 65536) / 1024)%N) in *. set (m := ((cp - 65536) mod 1024)%N) in *.
        rewrite <- app_assoc, parse_u_pair.
        + replace (65536 + (55296 + q - 55296) * 1024 + (56320 + m - 56320))%N with cp by lia.
          reflexivity.
        + lia.
        + lia.
        + unfold is_high. apply andb_true_iff. split; [apply N.leb_le|apply N.ltb_lt]; lia.
        + unfold is_low. apply andb_true_iff. split; [apply N.leb_le|apply N.ltb_lt]; lia. }
    rewrite Hparse, IH by (rewrite length_drop; lia).
    rewrite prepend_some, Henc. cbn [app]. rewrite take_drop. reflexivity.
  - pose proof (N_ascii_bounded c) as Hb. rewrite <- app_assoc, parse_u_escape.
    + rewrite IH by lia. unfold unit_bytes.
      destruct (N.leb_spec 56448 (56320 + N_of_ascii c)); [|lia].
      destruct (N.ltb_spec (56320 + N_of_ascii c) 56576); [|lia].
      cbn [andb prepend app].
      replace (56320 + N_of_ascii c - 56320)%N with (N_of_ascii c) by lia.
      rewrite ascii_N_embedding. reflexivity.
    + lia.
    + unfold is_high. apply andb_false_iff. right. apply N.ltb_ge. lia.
Qed.

Lemma parse_string_escape s rest :
  parse_string (escape s ++ "034"%char :: rest) = Some (s, rest).
Proof.
  unfold parse_string, escape. rewrite (parse_escape_bytes _ _ _ (Nat.le_refl _)).
  unfold chars. rewrite string_of_list_ascii_of_string. reflexivity.
Qed.

Lemma parse_quote s rest :
  parse_string (escape s ++ ["034"%char] ++ rest) = Some (s, rest).
Proof. apply parse_string_escape. Qed.
(** ** Values *)

Lemma skip_ws_newline lvl s : skip_ws (newline lvl ++ s) = skip_ws s.
Proof.
  unfold newline. cbn [app skip_ws]. 
  change (is_ws "010"%char) with true. cbn iota.
  induction (2 * lvl)%nat as [|n IH]; [reflexivity|].
  cbn [repeat app skip_ws]. change (is_ws " "%char) with true. exact IH.
Qed.

Lemma skip_ws_idem s : skip_ws (skip_ws s) = skip_ws s.
Proof.
  induction s as [|c s IH]; [reflexivity|].
  cbn [skip_ws]. destruct (is_ws c) eqn:E; [exact IH|].
  cbn [skip_ws]. rewrite E. reflexivity.
Qed.

Lemma parse_value_skip fuel s : parse_value fuel (skip_ws s) = parse_value fuel s.
Proof. destruct fuel; [reflexivity|]. cbn [parse_value]. rewrite skip_ws_idem. reflexivity. Qed.

Lemma parse_value_newline fuel lvl s :
  parse_value fuel (newline lvl ++ s) = parse_value fuel s.
Proof.
  rewrite <- parse_value_skip, skip_ws_newline, parse_value_skip. reflexivity.
Qed.

Lemma parse_value_space fuel s :
  parse_value fuel (" "%char :: s) = parse_value fuel s.
Proof. rewrite <- parse_value_skip. cbn [skip_ws]. apply parse_value_skip. Qed.


Lemma starts_with_None p s : take (length (chars p)) s <> chars p -> starts_with p s = None.
Proof. intros H. unfold starts_with. rewrite bool_decide_eq_false_2 by exact H. reflexivity. Qed.

Lemma starts_with_app p rest : starts_with p (chars p ++ rest) = Some rest.
Proof.
  unfold starts_with. rewrite take_app_length, drop_app_length.
  rewrite bool_decide_eq_true_2 by reflexivity. reflexivity.
Qed.

Lemma parse_value_other fuel c r :
  is_ws c = false ->
  Forall (fun k => N_of_ascii c <> k) [110; 116; 102; 78; 73; 34; 91; 123]%N ->
  parse_value (S fuel) (c :: r)
  = match starts_with "-Infinity" (c :: r) with
    | Some r' => Some (JFloat (FInf true), r')
    | None => parse_number (c :: r)
    end.
Proof.
  intros Hws Hc. cbn [parse_value skip_ws]. rewrite Hws.
  repeat match goal with
         | |- context [(N_of_ascii c =? ?k)%N] =>
             destruct (N.eqb_spec (N_of_ascii c) k) as [E|_];
             [exfalso; rewrite Forall_forall in Hc; apply (Hc k); [|exact E];
              rewrite !elem_of_cons; tauto|]
         end.
  reflexivity.
Qed.

(** A text that starts as a number is scanned as a number. *)
Lemma parse_value_number fuel t :
  number_head t -> parse_value (S fuel) t = parse_number t.
Proof.
  intros [(d & tl & ->)|(d & tl & ->)].
  - rewrite parse_value_other.
    + rewrite starts_with_None; [reflexivity|]. destruct d; cbn; discriminate.
    + destruct d; reflexivity.
    + destruct d; repeat constructor; vm_compute; discriminate.
  - rewrite parse_value_other.
    + rewrite starts_with_None; [reflexivity|]. destruct d; cbn; discriminate.
    + reflexivity.
    + repeat constructor; vm_compute; discriminate.
Qed.

Lemma dump_int_head z : number_head (dump_int z).
Proof.
  unfold dump_int, dump_nat. destruct (digits_of_N_head (Z.abs_N z)) as (d & ds & ->).
  destruct (z <? 0)%Z; [right|left]; cbn; eauto.
Qed.

Lemma dump_float_head f :
  match f with FZero _ | FDec _ _ _ => True | _ => False end -> number_head (dump_float f).
Proof.
  assert (H : forall neg t, (exists d tl, t = digit_char d :: tl) -> number_head (dump_sign neg t)).
  { intros neg t (d & tl & ->). destruct neg; [right|left]; cbn; eauto. }
  destruct f as [neg|neg s decpt| |]; try contradiction; intros _; cbn [dump_float]; apply H.
  - exists Dg0. eexists. reflexivity.
  - destruct (dump_dec_shape s decpt) as (int & frac & e & lz & tz & -> & Hint & _).
    apply number_text_head, Hint.
Qed.

Lemma number_head_start t :
  number_head t -> exists c tl, t = c :: tl /\ value_start c.
Proof.
  intros [(d & tl & ->)|(d & tl & ->)].
  - eexists _, _. split; [reflexivity|]. destruct d; repeat split; vm_compute; discriminate.
  - eexists _, _. split; [reflexivity|]. repeat split; vm_compute; discriminate.
Qed.

Lemma dump_head lvl v : exists c tl, dump lvl v = c :: tl /\ value_start c.
Proof.
  destruct v as [|[]|n|f|s|items|members]; cbn [dump].
  1-3: eexists _, _; split; [reflexivity|]; repeat split; vm_compute; discriminate.
  - apply number_head_start, dump_int_head.
  - destruct f as [neg|neg s decpt|[]|].
    + apply number_head_start, (dump_float_head (FZero neg)), I.
    + apply number_head_start, (dump_float_head (FDec neg s decpt)), I.
    + eexists _, _; split; [reflexivity|]; repeat split; vm_compute; discriminate.
    + eexists _, _; split; [reflexivity|]; repeat split; vm_compute; discriminate.
    + eexists _, _; split; [reflexivity|]; repeat split; vm_compute; discriminate.
  - eexists _, _; split; [reflexivity|]; repeat split; vm_compute; discriminate.
  - unfold bracket. destruct (map _ items);
      eexists _, _; (split; [reflexivity|]); repeat split; vm_compute; discriminate.
  - unfold bracket. destruct (map _ members);
      eexists _, _; (split; [reflexivity|]); repeat split; vm_compute; discriminate.
Qed.

(** ** Dictionaries *)
Lemma dict_set_fresh k v d :
  k ∉ map fst d -> dict_set k v d = d ++ [(k, v)].
Proof.
  induction d as [|[k' v'] d IH]; intros Hk; [reflexivity|].
  cbn [dict_set app]. cbn [map fst] in Hk.
  apply not_elem_of_cons in Hk as [Hne Hk].
  destruct (String.eqb_spec k k'); [congruence|]. rewrite IH by exact Hk. reflexivity.
Qed.

Lemma dict_of_pairs_acc ps acc :
  NoDup (map fst (acc ++ ps)) ->
  fold_left (fun d p => dict_set (fst p) (snd p) d) ps acc = acc ++ ps.
Proof.
  revert acc. induction ps as [|[k v] ps IH]; intros acc Hnd.
  - cbn. rewrite app_nil_r. reflexivity.
  - cbn [fold_left fst snd].
    assert (Hk : k ∉ map fst acc).
    { rewrite map_app in Hnd. cbn in Hnd.
      apply NoDup_app in Hnd as (_ & Hd & _).
      intros Hin. apply (Hd k Hin). left. }
    rewrite dict_set_fresh by exact Hk.
    rewrite IH; rewrite <- app_assoc; [reflexivity| exact Hnd].
Qed.

Lemma dict_of_pairs_nodup ps : NoDup (map fst ps) -> dict_of_pairs ps = ps.
Proof. intros H. unfold dict_of_pairs. apply (dict_of_pairs_acc ps []). exact H. Qed.

(** ** The scanner reads back what [dump] wrote *)

Lemma bracket_cons op cl lvl p ps rest :
  bracket op cl lvl (p :: ps) ++ rest = op :: parts_text cl lvl p ps rest.
Proof.
  unfold bracket, parts_text. cbn [app]. f_equal.
  repeat rewrite <- app_assoc. reflexivity.
Qed.

Lemma parts_text_next cl lvl p q ps rest :
  parts_text cl lvl p (q :: ps) rest
  = newline (S lvl) ++ p ++ ","%char :: parts_text cl lvl q ps rest.
Proof.
  unfold parts_text. cbn [map concat app]. repeat rewrite <- app_assoc. reflexivity.
Qed.

Lemma parts_text_last cl lvl p rest :
  parts_text cl lvl p [] rest = newline (S lvl) ++ p ++ newline lvl ++ cl :: rest.
Proof. reflexivity. Qed.

Lemma number_ends_comma s : number_ends (","%char :: s).
Proof. repeat split; discriminate. Qed.

Lemma number_ends_newline lvl s : number_ends (newline lvl ++ s).
Proof. repeat split; discriminate. Qed.

Lemma parts_text_length_next cl lvl p q ps :
  length (parts_text cl lvl p (q :: ps) [])
  = length (newline (S lvl)) + length p + 1 + length (parts_text cl lvl q ps []).
Proof. rewrite parts_text_next. repeat rewrite length_app. cbn [length]. lia. Qed.

Lemma parts_text_length_last cl lvl p :
  length p < length (parts_text cl lvl p [] []).
Proof. rewrite parts_text_last. unfold newline. repeat rewrite length_app. cbn [length]. lia. Qed.

Lemma bracket_length op cl lvl p ps :
  length (bracket op cl lvl (p :: ps)) = S (length (parts_text cl lvl p ps [])).
Proof.
  rewrite <- (app_nil_r (bracket op cl lvl (p :: ps))), bracket_cons. reflexivity.
Qed.

Lemma elems_step fuel : value_ok fuel -> elems_ok fuel -> elems_ok (S fuel).
Proof.
  intros IHv IHe x xs lvl rest Hfuel Hwf.
  cbn [forallb] in Hwf. apply andb_prop in Hwf as [Hx Hxs].
  destruct xs as [|y ys].
  - pose proof (parts_text_length_last "]"%char lvl (dump (S lvl) x)) as Hlen.
    cbn [map] in Hfuel.
    rewrite parts_text_last. cbn [parse_elems].
    rewrite parse_value_newline, IHv; [|lia|exact Hx|apply number_ends_newline].
    rewrite skip_ws_newline. reflexivity.
  - cbn [map] in *. rewrite parts_text_length_next in Hfuel.
    rewrite parts_text_next. cbn [parse_elems].
    rewrite parse_value_newline, IHv; [|lia|exact Hx|apply number_ends_comma].
    cbn [skip_ws]. change (is_ws ","%char) with false. cbn iota.
    change (N_of_ascii ","%char =? 44)%N with true. cbn iota.
    rewrite (IHe y ys); [reflexivity|lia|exact Hxs].
Qed.

Lemma member_text_length lvl k v :
  length (dump (S lvl) v) < length (member_text lvl (k, v)).
Proof. unfold member_text, quote. cbn [fst snd]. cbn [length]. rewrite length_app. cbn [length]. lia. Qed.

Lemma members_step fuel : value_ok fuel -> members_ok fuel -> members_ok (S fuel).
Proof.
  intros IHv IHm [k v] ms lvl rest Hfuel Hwf.
  cbn [forallb snd] in Hwf. apply andb_prop in Hwf as [Hx Hxs].
  pose proof (member_text_length lvl k v) as Hmem.
  assert (Hkey : forall tail,
    skip_ws (newline (S lvl) ++ member_text lvl (k, v) ++ tail)
    = "034"%char :: escape k ++ ["034"%char] ++ ":"%char :: " "%char :: dump (S lvl) v ++ tail).
  { intros tail. rewrite skip_ws_newline. unfold member_text, quote. cbn [fst snd app].
    cbn [skip_ws]. change (is_ws "034"%char) with false. cbn iota.
    repeat rewrite <- app_assoc. reflexivity. }
  destruct ms as [|m' ms'].
  - pose proof (parts_text_length_last "}"%char lvl (member_text lvl (k, v))) as Hlen.
    cbn [map] in Hfuel.
    rewrite parts_text_last. cbn [parse_members]. rewrite Hkey.
    change (N_of_ascii "034"%char =? 34)%N with true. cbn iota.
    rewrite parse_quote. cbn [skip_ws].
    change (is_ws ":"%char) with false. cbn iota.
    change (N_of_ascii ":"%char =? 58)%N with true. cbn iota.
    rewrite parse_value_space, IHv; [|lia|exact Hx|apply number_ends_newline].
    rewrite skip_ws_newline. reflexivity.
  - cbn [map] in *. rewrite parts_text_length_next in Hfuel.
    rewrite parts_text_next. cbn [parse_members]. rewrite Hkey.
    change (N_of_ascii "034"%char =? 34)%N with true. cbn iota.
    rewrite parse_quote. cbn [skip_ws].
    change (is_ws ":"%char) with false. cbn iota.
    change (N_of_ascii ":"%char =? 58)%N with true. cbn iota.
    rewrite parse_value_space, IHv; [|lia|exact Hx|apply number_ends_comma].
    cbn [skip_ws]. change (is_ws ","%char) with false. cbn iota.
    change (N_of_ascii ","%char =? 44)%N with true. cbn iota.
    rewrite (IHm m' ms'); [reflexivity|lia|exact Hxs].
Qed.

Lemma value_step fuel : value_ok fuel -> elems_ok fuel -> members_ok fuel -> value_ok (S fuel).
Proof.
  intros IHv IHe IHm v lvl rest Hfuel Hwf Hr.
  destruct v as [|[]|n|f|s|items|members].
  - reflexivity.
  - reflexivity.
  - reflexivity.
  - cbn [dump]. rewrite parse_value_number.
    + apply parse_number_int, Hr.
    + destruct (dump_int_head n) as [(d & tl & ->)|(d & tl & ->)]; [left|right]; cbn; eauto.
  - cbn [dump]. destruct f as [neg|neg s decpt|[]|]; try reflexivity.
    + rewrite parse_value_number.
      * apply (parse_number_float (FZero neg)); [exact I|exact Hr].
      * destruct (dump_float_head (FZero neg) I) as [(d & tl & ->)|(d & tl & ->)];
          [left|right]; cbn; eauto.
    + rewrite parse_value_number.
      * apply (parse_number_float (FDec neg s decpt)); [exact I|exact Hr].
      * destruct (dump_float_head (FDec neg s decpt) I) as [(d & tl & ->)|(d & tl & ->)];
          [left|right]; cbn; eauto.
  - cbn [dump]. unfold quote. cbn [app parse_value skip_ws].
    change (is_ws "034"%char) with false. cbn iota.
    change (N_of_ascii "034"%char =? 110)%N with false.
    change (N_of_ascii "034"%char =? 116)%N with false.
    change (N_of_ascii "034"%char =? 102)%N with false.
    change (N_of_ascii "034"%char =? 78)%N with false.
    change (N_of_ascii "034"%char =? 73)%N with false.
    change (N_of_ascii "034"%char =? 34)%N with true. cbn iota.
    rewrite <- app_assoc, parse_quote. reflexivity.
  - cbn [dump well_formed] in *. destruct items as [|x xs]; [reflexivity|].
    cbn [map] in *. rewrite bracket_length in Hfuel. rewrite bracket_cons.
    cbn [parse_value skip_ws].
    change (is_ws "["%char) with false. cbn iota.
    change (N_of_ascii "["%char =? 110)%N with false.
    change (N_of_ascii "["%char =? 116)%N with false.
    change (N_of_ascii "["%char =? 102)%N with false.
    change (N_of_ascii "["%char =? 78)%N with false.
    change (N_of_ascii "["%char =? 73)%N with false.
    change (N_of_ascii "["%char =? 34)%N with false.
    change (N_of_ascii "["%char =? 91)%N with true. cbn iota.
    destruct (dump_head (S lvl) x) as (c & tl & Heq & Hws & Hc & _).
    assert (Hskip : skip_ws (parts_text "]"%char lvl (dump (S lvl) x) (map (dump (S lvl)) xs) rest)
                    = c :: tl ++ concat (map (fun q => ","%char :: newline (S lvl) ++ q) (map (dump (S lvl)) xs))
                         ++ newline lvl ++ "]"%char :: rest).
    { unfold parts_text. rewrite skip_ws_newline, Heq. cbn [app skip_ws]. rewrite Hws. reflexivity. }
    rewrite Hskip. destruct (N.eqb_spec (N_of_ascii c) 93); [congruence|].
    rewrite (IHe x xs); [reflexivity|lia|exact Hwf].
  - cbn [dump well_formed] in *. apply andb_prop in Hwf as [Hnd Hwf].
    apply bool_decide_eq_true_1 in Hnd.
    destruct members as [|m ms]; [reflexivity|].
    change (fun m0 : string * json => quote (fst m0) ++ ":"%char :: " "%char :: dump (S lvl) (snd m0))
      with (member_text lvl) in *.
    cbn [map] in Hfuel |- *.
    rewrite bracket_length in Hfuel. rewrite bracket_cons.
    cbn [parse_value skip_ws].
    change (is_ws "{"%char) with false. cbn iota.
    change (N_of_ascii "{"%char =? 110)%N with false.
    change (N_of_ascii "{"%char =? 116)%N with false.
    change (N_of_ascii "{"%char =? 102)%N with false.
    change (N_of_ascii "{"%char =? 78)%N with false.
    change (N_of_ascii "{"%char =? 73)%N with false.
    change (N_of_ascii "{"%char =? 34)%N with false.
    change (N_of_ascii "{"%char =? 91)%N with false.
    change (N_of_ascii "{"%char =? 123)%N with true. cbn iota.
    assert (Hskip : exists tl,
      skip_ws (parts_text "}"%char lvl (member_text lvl m) (map (member_text lvl) ms) rest)
      = "034"%char :: tl).
    { unfold parts_text. rewrite skip_ws_newline. unfold member_text at 1, quote.
      cbn [app skip_ws]. change (is_ws "034"%char) with false. cbn iota. eauto. }
    destruct Hskip as (tl & ->).
    change (N_of_ascii "034"%char =? 125)%N with false. cbn iota.
    rewrite (IHm m ms); [|lia|exact Hwf].
    rewrite dict_of_pairs_nodup by exact Hnd. reflexivity.
Qed.

Lemma parse_dump fuel : value_ok fuel /\ elems_ok fuel /\ members_ok fuel.
Proof.
  induction fuel as [|fuel (IHv & IHe & IHm)].
  - repeat split.
    + intros v lvl rest Hlen. exfalso.
      destruct (dump_head lvl v) as (c & tl & Heq & _). rewrite Heq in Hlen. cbn in Hlen. lia.
    + intros x xs lvl rest Hlen. exfalso.
      unfold parts_text, newline in Hlen. cbn in Hlen. lia.
    + intros x xs lvl rest Hlen. exfalso.
      unfold parts_text, newline in Hlen. cbn in Hlen. lia.
  - split; [|split].
    + apply value_step; assumption.
    + apply elems_step; assumption.
    + apply members_step; assumption.
Qed.

(** [json.load] reads back what [json.dump] wrote. *)

Lemma loads_dumps v : well_formed v = true -> loads (dumps v) = Some v.
Proof.
  intros Hwf. unfold loads, dumps.
  destruct (parse_dump (S (2 * length (dump 0 v)))) as (Hv & _).
  pose proof (Hv v 0 [] ltac:(lia) Hwf I) as Hp.
  rewrite app_nil_r in Hp. rewrite Hp. reflexivity.
Qed.

(** ** What the scanner returns is a Python object *)
(** ** What the scanner returns is a Python object *)

Lemma dict_set_keys k v d :
  map fst (dict_set k v d) = map fst d
  \/ ((k ∉ map fst d) /\ map fst (dict_set k v d) = map fst d ++ [k]).
Proof.
  induction d as [|[k' v'] d IH]; cbn [dict_set map fst].
  - right. split; [apply not_elem_of_nil|reflexivity].
  - destruct (String.eqb_spec k k') as [->|Hne]; cbn [map fst].
    + left. reflexivity.
    + destruct IH as [IH|[Hk IH]]; rewrite IH.
      * left. reflexivity.
      * right. split; [|reflexivity]. apply not_elem_of_cons. split; assumption.
Qed.

Lemma dict_set_nodup k v d : NoDup (map fst d) -> NoDup (map fst (dict_set k v d)).
Proof.
  intros Hd. destruct (dict_set_keys k v d) as [->|[Hk ->]]; [exact Hd|].
  apply NoDup_app. repeat split; [exact Hd| |apply NoDup_singleton].
  intros x Hx Hx'. apply list_elem_of_singleton in Hx'. subst. contradiction.
Qed.

Lemma dict_set_well_formed k v d :
  well_formed v = true ->
  forallb (fun m => well_formed (snd m)) d = true ->
  forallb (fun m => well_formed (snd m)) (dict_set k v d) = true.
Proof.
  intros Hv. induction d as [|[k' v'] d IH]; cbn [dict_set forallb snd].
  - intros _. rewrite Hv. reflexivity.
  - intros H. apply andb_prop in H as [H1 H2].
    destruct (String.eqb k k'); cbn [forallb snd].
    + rewrite Hv, H2. reflexivity.
    + rewrite H1, IH by exact H2. reflexivity.
Qed.

Lemma dict_of_pairs_well_formed ps :
  forallb (fun m => well_formed (snd m)) ps = true ->
  well_formed (JObj (dict_of_pairs ps)) = true.
Proof.
  intros Hps. unfold dict_of_pairs.
  assert (H : forall acc,
    NoDup (map fst acc) -> forallb (fun m => well_formed (snd m)) acc = true ->
    well_formed (JObj (fold_left (fun d p => dict_set (fst p) (snd p) d) ps acc)) = true).
  { induction ps as [|[k v] ps IH]; intros acc Hnd Hwf.
    - cbn [fold_left well_formed]. rewrite Hwf.
      rewrite bool_decide_eq_true_2 by exact Hnd. reflexivity.
    - cbn [forallb snd] in Hps. apply andb_prop in Hps as [Hv Hps].
      cbn [fold_left fst snd]. apply IH; [exact Hps|apply dict_set_nodup; exact Hnd|].
      apply dict_set_well_formed; assumption. }
  apply H; [apply NoDup_nil_2|reflexivity].
Qed.

Lemma parse_number_well_formed s v r : parse_number s = Some (v, r) -> well_formed v = true.
Proof.
  unfold parse_number, parse_unsigned. intros H.
  repeat case_match; simplify_eq; reflexivity.
Qed.

Lemma parse_well_formed fuel :
  (forall s v r, parse_value fuel s = Some (v, r) -> well_formed v = true) /\
  (forall s vs r, parse_elems fuel s = Some (vs, r) -> forallb well_formed vs = true) /\
  (forall s ms r, parse_members fuel s = Some (ms, r) ->
     forallb (fun m => well_formed (snd m)) ms = true).
Proof.
  induction fuel as [|fuel (IHv & IHe & IHm)]; [repeat split; intros; discriminate|].
  split; [|split].
  - intros s v r H. cbn [parse_value] in H.
    repeat case_match; simplify_eq; try reflexivity;
      try (eapply parse_number_well_formed; eassumption).
    + cbn [well_formed]. eapply IHe. eassumption.
    + apply dict_of_pairs_well_formed. eapply IHm. eassumption.
  - intros s vs r H. cbn [parse_elems] in H.
    repeat case_match; simplify_eq; cbn [forallb].
    + erewrite IHv, IHe by eassumption. reflexivity.
    + erewrite IHv by eassumption. reflexivity.
  - intros s ms r H. cbn [parse_members] in H.
    repeat case_match; simplify_eq; cbn [forallb snd].
    + erewrite IHv, IHm by eassumption. reflexivity.
    + erewrite IHv by eassumption. reflexivity.
Qed.

Lemma loads_well_formed s v : loads s = Some v -> well_formed v = true.
Proof.
  unfold loads. intros H. repeat case_match; simplify_eq.
  eapply (proj1 (parse_well_formed _)). eassumption.
Qed.
(* ===================================================================== *)
(** * Facts about the store                                               *)
(* ===================================================================== *)

Lemma dirname_JOB_FILE : dirname JOB_FILE = STORE_DIR.
Proof. reflexivity. Qed.

Lemma load_jobs_loaded w : load_jobs w = (Ok (loaded w), w).
Proof.
  destruct w as [? [[[|c|c|] ? ? ? ? ?]|] ? ? ? ? ? ?]; try reflexivity.
  unfold load_jobs, loaded, store_file, os_path_exists, read_file, json_load, try_except,
    mbind, M_bind, gets. cbn.
  destruct (loads c); reflexivity.
Qed.

(** [save_jobs] either replaces the store or raises and leaves the world as
    it was. *)
Lemma save_jobs_cases data w :
  (writable w /\ save_jobs data w = (Ok tt, after_save data w))
  \/ (~ writable w /\ exists e, save_jobs data w = (Raise e, w)).
Proof.
  destruct w as [t [[q ts r f a sp]|] ps np pg en dr tr].
  2:{ right. split; [intros (d & H & _); discriminate H|].
      exists FileNotFoundError. reflexivity. }
  unfold save_jobs, atomic_write. rewrite dirname_JOB_FILE.
  destruct a.
  2:{ right. split; [intros (d & H & _ & Ha & _); injection H as <-; discriminate Ha|].
      exists PermissionError. reflexivity. }
  destruct sp.
  2:{ right. split; [intros (d & H & _ & _ & Hs); injection H as <-; discriminate Hs|].
      exists NoSpaceError.
      unfold mbind, M_bind, mkstemp, try_except, write_json, os_replace, os_unlink, raise.
      repeat (progress (simpl; rewrite ?Nat.eqb_refl)). reflexivity. }
  destruct q as [|c|c|].
  4:{ right. split; [intros (d & H & Hq & _); injection H as <-; apply Hq; reflexivity|].
      exists IsADirectoryError.
      unfold mbind, M_bind, mkstemp, try_except, write_json, os_replace, os_unlink, raise.
      repeat (progress (simpl; rewrite ?Nat.eqb_refl)). reflexivity. }
  all: left; split;
    [eexists; split; [reflexivity|]; split; [discriminate|split; reflexivity]|];
    unfold after_save, mbind, M_bind, mkstemp, try_except, write_json, os_replace, os_unlink,
      raise;
    repeat (progress (simpl; rewrite ?Nat.eqb_refl)); reflexivity.
Qed.

Lemma save_jobs_writable data w :
  writable w -> save_jobs data w = (Ok tt, after_save data w).
Proof.
  intros Hw. destruct (save_jobs_cases data w) as [[_ H]|[Hn _]]; [exact H|contradiction].
Qed.

Lemma save_jobs_not_writable data w :
  ~ writable w -> exists e, save_jobs data w = (Raise e, w).
Proof.
  intros Hn. destruct (save_jobs_cases data w) as [[Hw _]|[_ H]]; [contradiction|exact H].
Qed.

Lemma store_file_after_save data w :
  writable w -> store_file (after_save data w) = File (dumps data).
Proof. intros (d & H & _). unfold store_file, after_save. rewrite H. reflexivity. Qed.

Lemma loaded_after_save data w :
  writable w -> well_formed data = true -> loaded (after_save data w) = data.
Proof.
  intros Hw Hwf. unfold loaded. rewrite (store_file_after_save _ _ Hw).
  rewrite loads_dumps by exact Hwf. reflexivity.
Qed.

Lemma writable_after_save data w : writable w -> writable (after_save data w).
Proof.
  intros (d & H & _ & Ha & Hs). unfold after_save. rewrite H.
  eexists. split; [reflexivity|]. cbn. split; [discriminate|]. split; assumption.
Qed.

Lemma loaded_well_formed w : well_formed (loaded w) = true.
Proof.
  unfold loaded. destruct (store_file w) as [|c|c|]; try reflexivity.
  destruct (loads c) eqn:E; [|reflexivity]. eapply loads_well_formed, E.
Qed.

(** A store that holds an element can be replaced when the directory is
    accessible and the disk has room. *)
Lemma writable_same_disk w w' : disk w' = disk w -> writable w -> writable w'.
Proof. intros E (d & H & Hq). exists d. rewrite E. auto. Qed.

Lemma trace_after_save data w :
  writable w -> trace (after_save data w) = trace w ++ [Stored (now w) (dumps data)].
Proof. intros (d & H & _). unfold after_save. rewrite H. reflexivity. Qed.

Lemma procs_after_save data w : procs (after_save data w) = procs w.
Proof. unfold after_save. destruct (disk w); reflexivity. Qed.

Lemma now_after_save data w : now (after_save data w) = now w.
Proof. unfold after_save. destruct (disk w); reflexivity. Qed.

Lemma programs_after_save data w : programs (after_save data w) = programs w.
Proof. unfold after_save. destruct (disk w); reflexivity. Qed.

Lemma loaded_log e w : loaded (log e w) = loaded w.
Proof. reflexivity. Qed.

Lemma writable_log e w : writable w -> writable (log e w).
Proof. intros H. exact H. Qed.

(** ** Records and dictionaries *)

Lemma job_of_to_json j : job_of_json (job_to_json j) = Some j.
Proof. destruct j as [i n c s [p|] [t0|] [t1|] [t2|] [tm|]]; reflexivity. Qed.

Lemma job_to_json_well_formed j : well_formed (job_to_json j) = true.
Proof.
  destruct j as [i n c s p t0 t1 t2 tm]. unfold job_to_json. cbn [well_formed].
  apply andb_true_intro. split.
  - apply bool_decide_eq_true_2. destruct tm; cbn;
      apply (bool_decide_unpack _); vm_compute; exact I.
  - destruct p, t0, t1, t2, tm; reflexivity.
Qed.

Lemma as_table_to_json t : as_table (table_to_json t) = Some t.
Proof.
  unfold as_table, table_to_json. apply mapM_Some. induction t as [|j t IH]; cbn [map].
  - constructor.
  - constructor; [apply job_of_to_json|exact IH].
Qed.

Lemma table_to_json_well_formed t : well_formed (table_to_json t) = true.
Proof.
  unfold table_to_json. cbn [well_formed]. induction t as [|j t IH]; [reflexivity|].
  cbn [map forallb]. rewrite job_to_json_well_formed. exact IH.
Qed.

(* ===================================================================== *)
(** * Facts about submission                                              *)
(* ===================================================================== *)

Lemma length_append (s1 s2 : string) :
  String.length (s1 +:+ s2) = String.length s1 + String.length s2.
Proof. induction s1 as [|c s1 IH]; simpl; [reflexivity|]. f_equal. exact IH. Qed.

Lemma length_hex k n : String.length (hex k n) = k.
Proof.
  revert n. induction k as [|k IH]; intros n; [reflexivity|].
  cbn [hex]. rewrite length_append, IH. cbn. lia.
Qed.

Lemma length_prefix n (s : string) :
  n <= String.length s -> String.length (substring 0 n s) = n.
Proof.
  revert s. induction n as [|n IH]; intros s H.
  - destruct s; reflexivity.
  - destruct s as [|c s]; cbn in H; [lia|]. cbn. rewrite IH by lia. reflexivity.
Qed.

Lemma length_substring a n (s : string) :
  a + n <= String.length s -> String.length (substring a n s) = n.
Proof.
  revert s. induction a as [|a IH]; intros s H.
  - apply length_prefix. lia.
  - destruct s as [|c s]; cbn in H; [lia|]. cbn. apply IH. lia.
Qed.

(** [str(uuid)] has 36 characters. *)
Lemma length_uuid_str u : String.length (uuid_str u) = 36.
Proof.
  unfold uuid_str, slice. rewrite !length_append.
  pose proof (length_hex 32 u) as H.
  rewrite !length_substring by (rewrite H; cbn; lia). reflexivity.
Qed.

Lemma length_slice_uuid u : String.length (slice 0 8 (uuid_str u)) = 8.
Proof.
  unfold slice. apply length_substring. rewrite length_uuid_str. cbn. lia.
Qed.

Lemma well_formed_append items v :
  well_formed (JArr items) = true -> well_formed v = true ->
  well_formed (JArr (items ++ [v])) = true.
Proof.
  cbn [well_formed]. intros H1 H2. rewrite forallb_app, H1. cbn. rewrite H2. reflexivity.
Qed.

Lemma as_table_app items t j :
  mapM job_of_json items = Some t ->
  as_table (JArr (items ++ [job_to_json j])) = Some (t ++ [j]).
Proof.
  intros H. cbn [as_table]. apply mapM_Some. apply mapM_Some in H.
  apply Forall2_app; [exact H|]. constructor; [apply job_of_to_json|constructor].
Qed.

(** The dictionary [submit_job] builds is the one of a record. *)
Lemma new_job_record u t command opt_name opt_timeout :
  new_job u t command opt_name opt_timeout
  = job_to_json (Job (slice 0 8 (uuid_str u)) (name_or opt_name (py_take 50 command)) command
                     "queued" None (Some t) None None (Some (default TIMEOUT opt_timeout))).
Proof. reflexivity. Qed.

(** What [submit_job] does, case by case. *)
Lemma submit_job_run command opt_name opt_timeout w :
  let job := new_job (uuid_int (entropy w (drawn w) mod 2 ^ 128)%N) (now w)
                     command opt_name opt_timeout in
  let w0 := set_drawn (S (drawn w)) w in
  match loaded w with
  | JArr items =>
      (writable w /\
       submit_job command opt_name opt_timeout w
       = (Ok (next_id w),
          log (Printed (Msg_command command))
            (log (Printed (Msg_name (name_or opt_name (py_take 50 command))))
               (log (Printed (Msg_submitted (next_id w)))
                  (after_save (JArr (items ++ [job])) w0)))))
      \/ (~ writable w /\
          exists e, submit_job command opt_name opt_timeout w = (Raise e, w0))
  | _ => submit_job command opt_name opt_timeout w = (Raise AttributeError, w0)
  end.
Proof.
  intros job w0. subst w0.
  unfold submit_job, uuid4, urandom16, time_time, gets, mbind, M_bind, mret, M_ret.
  cbn [now set_drawn]. fold job. fold (next_id w).
  set (w0 := set_drawn (S (drawn w)) w).
  rewrite (load_jobs_loaded w0). change (loaded w0) with (loaded w).
  destruct (loaded w) as [|b|n|f|s|items|members]; try reflexivity.
  destruct (save_jobs_cases (JArr (items ++ [job])) w0) as [[Hw Hs]|[Hw [e Hs]]];
    rewrite Hs.
  - left. split; [exact Hw|reflexivity].
  - right. split; [exact Hw|]. exists e. reflexivity.
Qed.

(** What one call of [submit_job] does to the world, whatever its outcome:
    one UUID is drawn, and the store either stays as it was or gains the new
    dictionary. *)
Lemma submit_job_effect command opt_name opt_timeout w :
  let job := new_job (uuid_int (entropy w (drawn w) mod 2 ^ 128)%N) (now w)
                     command opt_name opt_timeout in
  let r := submit_job command opt_name opt_timeout w in
  entropy (snd r) = entropy w /\ drawn (snd r) = S (drawn w)
  /\ ((loaded (snd r) = loaded w /\ forall i, fst r <> Ok i)
      \/ (exists items, loaded w = JArr items
            /\ loaded (snd r) = JArr (items ++ [job])
            /\ fst r = Ok (next_id w))).
Proof.
  intros job r. subst r.
  pose proof (submit_job_run command opt_name opt_timeout w) as Hrun. cbv zeta in Hrun.
  fold job in Hrun. pose proof (loaded_well_formed w) as Hwf.
  destruct (loaded w) as [|b|n|f|s|items|members] eqn:E;
    try (rewrite Hrun; cbn; repeat split; left; split; [exact E|discriminate]).
  destruct Hrun as [[Hw Hrun]|[_ [e Hrun]]]; rewrite Hrun; cbn [fst snd].
  - cbn [log entropy drawn]. repeat split.
    + unfold after_save. destruct (disk (set_drawn (S (drawn w)) w)); reflexivity.
    + unfold after_save. destruct (disk (set_drawn (S (drawn w)) w)); reflexivity.
    + right. exists items. repeat split.
      rewrite !loaded_log. apply loaded_after_save; [exact Hw|].
      apply well_formed_append; [exact Hwf|].
      unfold job. rewrite new_job_record. apply job_to_json_well_formed.
  - cbn. repeat split. left. split; [exact E|discriminate].
Qed.

Lemma next_ids_step n w w1 :
  entropy w1 = entropy w -> drawn w1 = S (drawn w) ->
  next_ids (S n) w = next_id w :: next_ids n w1.
Proof.
  intros He Hd. unfold next_ids, next_id. cbn [seq map].
  rewrite Nat.add_0_r. f_equal.
  rewrite <- seq_shift, map_map, He, Hd.
  apply map_ext. intros k. rewrite Nat.add_succ_r. reflexivity.
Qed.
(* ===================================================================== *)
(** * Facts about cancel                                                  *)
(* ===================================================================== *)

(** [find_job] reads and changes nothing. *)
Lemma find_job_pure job_id i items w :
  exists r, find_job job_id i items w = (r, w)
            /\ match r with Ok _ | Raise _ => True | _ => False end.
Proof.
  revert i. induction items as [|j items IH]; intros i; cbn [find_job].
  - eexists. split; [reflexivity|exact I].
  - unfold mbind, M_bind, getitem.
    destruct j as [| | | | | |d]; try (eexists; split; [reflexivity|exact I]).
    destruct (dict_get "id" d) as [v|]; [|eexists; split; [reflexivity|exact I]].
    cbn. destruct (py_eq_str v job_id); [eexists; split; [reflexivity|exact I]|apply IH].
Qed.

(** The element found is at its place, is a dictionary, and has the id. *)
Lemma find_job_found job_id i0 items w i job :
  find_job job_id i0 items w = (Ok (Some (i, job)), w) ->
  exists d, job = JObj d /\ i0 <= i /\ items !! (i - i0) = Some job
            /\ dict_get "id" d = Some (JStr job_id).
Proof.
  revert i0. induction items as [|j items IH]; intros i0; cbn [find_job].
  - discriminate.
  - unfold mbind, M_bind, getitem.
    destruct j as [| | | | | |d]; try discriminate.
    destruct (dict_get "id" d) as [v|] eqn:Hv; [|discriminate].
    cbn. destruct (py_eq_str v job_id) eqn:Heq.
    + intros H. injection H as <- <-. exists d. rewrite Nat.sub_diag.
      split; [reflexivity|]. split; [lia|]. split; [reflexivity|].
      destruct v; try discriminate Heq. cbn in Heq. apply String.eqb_eq in Heq. subst.
      exact Hv.
    + intros H. destruct (IH _ H) as (d' & -> & Hle & Hi & Hid). exists d'.
      split; [reflexivity|]. split; [lia|]. split; [|exact Hid].
      replace (i - i0) with (S (i - S i0)) by lia. exact Hi.
Qed.

(** What [cancel_job] does once the job is found, case by case. *)
Lemma cancel_job_found job_id w items i d state :
  loaded w = JArr items ->
  find_job job_id 0 items w = (Ok (Some (i, JObj d)), w) ->
  dict_get "state" d = Some state ->
  cancel_job job_id w
  = if py_eq_str state "queued" then
      (save_jobs (JArr (<[ i := JObj (dict_set "state" (JStr "cancelled") d) ]> items));;
       print (Msg_cancelled_queued job_id)) w
    else if py_eq_str state "running" then
      try_except
        (pid ← getitem (JObj d) "pid";
         os_kill pid SIGTERM;;
         save_jobs (JArr (<[ i := JObj (dict_set "state" (JStr "cancelled") d) ]> items));;
         print (Msg_cancelled_running job_id))
        (fun _ => pid ← getitem (JObj d) "pid"; print (Msg_failed_to_kill pid)) w
    else (Ok tt, log (AlreadyTerminal job_id state) w).
Proof.
  intros Hl Hf Hs. unfold cancel_job, mbind at 1 2 3, M_bind at 1 2 3.
  rewrite load_jobs_loaded, Hl. cbn [iter_of mret M_ret]. rewrite Hf.
  unfold mbind at 1, M_bind at 1, getitem at 1. rewrite Hs. cbn [mret M_ret setitem].
  destruct (py_eq_str state "queued"); [reflexivity|].
  destruct (py_eq_str state "running"); reflexivity.
Qed.

Lemma terminal_not_queued s : terminal s -> py_eq_str (JStr s) "queued" = false.
Proof. intros [-> | [-> | [-> | ->]]]; reflexivity. Qed.

Lemma terminal_not_running s : terminal s -> py_eq_str (JStr s) "running" = false.
Proof. intros [-> | [-> | [-> | ->]]]; reflexivity. Qed.

Lemma os_kill_ok p s w w1 :
  os_kill p s w = (Ok tt, w1) ->
  exists q, (p = JNum q \/ (q = 1%Z /\ p = JBool true))
            /\ disk w1 = disk w /\ now w1 = now w
            /\ trace w1 = trace w ++ [Signalled q s]
            /\ procs w1 = match s with SIG0 => procs w | _ => delete q (procs w) end.
Proof.
  unfold os_kill.
  destruct p as [|b|n| | | |]; try discriminate.
  - destruct b; cbn [Z.ltb Z.leb orb]; try discriminate.
    change ((1 <? - 2 ^ 31) || (2 ^ 31 <=? 1))%Z with false. cbn iota.
    change (1 <=? 0)%Z with false. cbn iota.
    destruct (procs w !! 1%Z) as [pr|]; [|discriminate].
    destruct (may_signal pr); [|discriminate].
    intros H. injection H as <-. exists 1%Z. destruct s; repeat split; auto.
  - destruct ((n <? - 2 ^ 31) || (2 ^ 31 <=? n))%Z; [discriminate|].
    destruct (n <=? 0)%Z; [discriminate|].
    destruct (procs w !! n) as [pr|]; [|discriminate].
    destruct (may_signal pr); [|discriminate].
    intros H. injection H as <-. exists n. destruct s; repeat split; auto.
Qed.

Lemma os_kill_raise p s w e w1 : os_kill p s w = (Raise e, w1) -> w1 = w.
Proof.
  unfold os_kill.
  destruct (match p with JNum n => Some n | JBool b => Some (if b then 1 else 0)%Z
                         | _ => None end) as [q|];
    [|intros H; injection H; auto].
  destruct ((q <? - 2 ^ 31) || (2 ^ 31 <=? q))%Z; [intros H; injection H; auto|].
  destruct (q <=? 0)%Z; [discriminate|].
  destruct (procs w !! q) as [pr|]; [|intros H; injection H; auto].
  destruct (may_signal pr); [discriminate|intros H; injection H; auto].
Qed.

Lemma well_formed_insert items i v :
  well_formed (JArr items) = true -> well_formed v = true ->
  well_formed (JArr (<[ i := v ]> items)) = true.
Proof.
  cbn [well_formed]. rewrite !forallb_forall. intros H Hv x Hx.
  apply list_elem_of_In, list_elem_of_lookup in Hx as [k Hk].
  apply list_lookup_insert_Some in Hk as [(-> & -> & _)|[Hne Hk]]; [exact Hv|].
  apply H, list_elem_of_In, list_elem_of_lookup. eauto.
Qed.

Lemma well_formed_lookup items i v :
  well_formed (JArr items) = true -> items !! i = Some v -> well_formed v = true.
Proof.
  cbn [well_formed]. rewrite forallb_forall. intros H Hi.
  apply H, list_elem_of_In, list_elem_of_lookup. eauto.
Qed.

(** Cancelling a job found [running], case by case: the signal is
    delivered and the table saved; the signal is delivered and the save
    raises; the signal is not delivered. *)
Lemma cancel_running_cases job_id w items i d pid :
  loaded w = JArr items ->
  find_job job_id 0 items w = (Ok (Some (i, JObj d)), w) ->
  dict_get "state" d = Some (JStr "running") ->
  dict_get "pid" d = Some pid ->
  let saved := JArr (<[ i := JObj (dict_set "state" (JStr "cancelled") d) ]> items) in
  (forall w1, os_kill pid SIGTERM w = (Ok tt, w1) -> writable w ->
     cancel_job job_id w
     = (Ok tt, log (Printed (Msg_cancelled_running job_id)) (after_save saved w1))
     /\ loaded (after_save saved w1) = saved)
  /\ (forall w1, os_kill pid SIGTERM w = (Ok tt, w1) -> ~ writable w ->
     cancel_job job_id w = (Ok tt, log (CancelFailed pid) w1))
  /\ (forall e w1, os_kill pid SIGTERM w = (Raise e, w1) ->
     cancel_job job_id w = (Ok tt, log (CancelFailed pid) w)).
Proof.
  intros Hl Hf Hs Hp saved.
  pose proof (cancel_job_found _ _ _ _ _ _ Hl Hf Hs) as Hc.
  change (py_eq_str (JStr "running") "queued") with false in Hc.
  change (py_eq_str (JStr "running") "running") with true in Hc. cbv iota in Hc.
  fold saved in Hc.
  assert (Hget : forall w0 : world, getitem (JObj d) "pid" w0 = (Ok pid, w0)).
  { intros w0. unfold getitem. rewrite Hp. reflexivity. }
  assert (Hwf : well_formed saved = true).
  { destruct (find_job_found _ _ _ _ _ _ Hf) as (d' & Hd' & _ & Hi & _).
    injection Hd' as <-. rewrite Nat.sub_0_r in Hi.
    pose proof (loaded_well_formed w) as Hw. rewrite Hl in Hw.
    apply well_formed_insert; [exact Hw|].
    pose proof (well_formed_lookup _ _ _ Hw Hi) as Hj. cbn [well_formed] in Hj |- *.
    apply andb_prop in Hj as [Hnd Hvs]. apply bool_decide_eq_true_1 in Hnd.
    apply andb_true_intro. split.
    - apply bool_decide_eq_true_2, dict_set_nodup, Hnd.
    - apply dict_set_well_formed; [reflexivity|exact Hvs]. }
  split; [|split].
  - intros w1 Hkill Hw. destruct (os_kill_ok _ _ _ _ Hkill) as (q & _ & Hd & _).
    pose proof (writable_same_disk _ _ Hd Hw) as Hw1. split.
    + rewrite Hc. unfold try_except, mbind, M_bind. rewrite Hget, Hkill.
      rewrite (save_jobs_writable _ _ Hw1). reflexivity.
    + apply loaded_after_save; assumption.
  - intros w1 Hkill Hn. destruct (os_kill_ok _ _ _ _ Hkill) as (q & _ & Hd & _).
    assert (Hn1 : ~ writable w1).
    { intros H. apply Hn. eapply writable_same_disk; [|exact H]. symmetry. exact Hd. }
    destruct (save_jobs_not_writable saved _ Hn1) as [e He].
    rewrite Hc. unfold try_except, mbind, M_bind. rewrite Hget, Hkill, He, Hget. reflexivity.
  - intros e w1 Hkill. pose proof (os_kill_raise _ _ _ _ _ Hkill) as ->.
    rewrite Hc. unfold try_except, mbind, M_bind. rewrite Hget, Hkill, Hget. reflexivity.
Qed.
(* ===================================================================== *)
(** * The job store: load and save                                        *)
(* ===================================================================== *)

(** C2, as the code has it: [load_jobs] never raises and changes nothing.
    It returns the value the store file holds; it returns the empty table
    when the file is absent, when the file is there and cannot be read (no
    permission, a directory in its place), and when it is read and is not
    JSON (or not UTF-8). *)
Theorem load_jobs_never_raises w :
  (exists v, load_jobs w = (Ok v, w)) /\
  (forall c v, store_file w = File c -> loads c = Some v -> load_jobs w = (Ok v, w)) /\
  (store_file w = Absent -> load_jobs w = (Ok (JArr []), w)) /\
  (forall c, store_file w = Locked c -> load_jobs w = (Ok (JArr []), w)) /\
  (store_file w = Directory -> load_jobs w = (Ok (JArr []), w)) /\
  (forall c, store_file w = File c -> loads c = None -> load_jobs w = (Ok (JArr []), w)).
Proof.
  rewrite load_jobs_loaded. unfold loaded.
  split; [eauto|]. split; [|split; [|split; [|split]]].
  - intros c v -> ->. reflexivity.
  - intros ->. reflexivity.
  - intros c ->. reflexivity.
  - intros ->. reflexivity.
  - intros c -> ->. reflexivity.
Qed.

Lemma load_jobs_never_raises_witness :
  load_jobs (store_of [job_a; job_b] ∅)
  = (Ok (table_to_json [job_a; job_b]), store_of [job_a; job_b] ∅)
  /\ load_jobs fresh_store = (Ok (JArr []), fresh_store)
  /\ load_jobs locked_store = (Ok (JArr []), locked_store)
  /\ load_jobs directory_store = (Ok (JArr []), directory_store)
  /\ load_jobs truncated_store = (Ok (JArr []), truncated_store).
Proof.
  split; [|split; [|split; [|split]]].
  - apply (proj1 (proj2 (load_jobs_never_raises (store_of [job_a; job_b] ∅)))
             (dumps (table_to_json [job_a; job_b])) _ eq_refl).
    vm_compute. reflexivity.
  - apply (proj1 (proj2 (proj2 (load_jobs_never_raises fresh_store))) eq_refl).
  - apply (proj1 (proj2 (proj2 (proj2 (load_jobs_never_raises locked_store)))) _ eq_refl).
  - apply (proj1 (proj2 (proj2 (proj2 (proj2 (load_jobs_never_raises directory_store)))))
             eq_refl).
  - apply (proj2 (proj2 (proj2 (proj2 (proj2 (load_jobs_never_raises truncated_store)))))
             truncated_text eq_refl).
    vm_compute. reflexivity.
Defined.

(** C2, as the specification has it, fails: on a store file that exists and
    cannot be parsed, [load_jobs] raises nothing and returns the empty table,
    the very answer it gives when there is no file; the same on a store file
    that cannot be read. *)
Lemma load_jobs_hides_parse_error :
  os_path_exists JOB_FILE truncated_store = (Ok true, truncated_store)
  /\ read_file JOB_FILE truncated_store = (Ok truncated_text, truncated_store)
  /\ json_load truncated_text truncated_store = (Raise ValueError, truncated_store)
  /\ load_jobs truncated_store = (Ok (JArr []), truncated_store)
  /\ fst (load_jobs truncated_store) = fst (load_jobs fresh_store)
  /\ read_file JOB_FILE locked_store = (Raise PermissionError, locked_store)
  /\ fst (load_jobs locked_store) = fst (load_jobs fresh_store).
Proof. vm_compute. repeat split. Qed.

(** [json.load] reads back what [json.dump] wrote, whatever the value. *)
Lemma save_then_load_value data w w' :
  well_formed data = true ->
  save_jobs data w = (Ok tt, w') -> load_jobs w' = (Ok data, w').
Proof.
  intros Hwf H.
  destruct (save_jobs_cases data w) as [[Hw E]|[_ [e E]]]; rewrite E in H; [|discriminate].
  injection H as <-. rewrite load_jobs_loaded, loaded_after_save by assumption. reflexivity.
Qed.

(** C5: [save_jobs(jobs)] followed by [load_jobs()] gives back the table that
    was saved, record by record and field by field, whatever the table: the
    time stamps are floats, the strings any text. *)
Theorem save_then_load (t : list job) w w' :
  save_jobs (table_to_json t) w = (Ok tt, w') ->
  load_jobs w' = (Ok (table_to_json t), w') /\ as_table (loaded w') = Some t.
Proof.
  intros H.
  pose proof (save_then_load_value _ _ _ (table_to_json_well_formed t) H) as Hl.
  split; [exact Hl|]. rewrite load_jobs_loaded in Hl. injection Hl as ->.
  apply as_table_to_json.
Qed.

Lemma save_then_load_witness :
  (let w' := snd (save_jobs (table_to_json []) fresh_store) in
   load_jobs w' = (Ok (table_to_json []), w') /\ as_table (loaded w') = Some [])
  /\ (let w' := snd (save_jobs (table_to_json [job_d]) fresh_store) in
      load_jobs w' = (Ok (table_to_json [job_d]), w') /\ as_table (loaded w') = Some [job_d])
  /\ (let w' := snd (save_jobs (table_to_json [job_a; job_b; job_c; job_d]) fresh_store) in
      load_jobs w' = (Ok (table_to_json [job_a; job_b; job_c; job_d]), w')
      /\ as_table (loaded w') = Some [job_a; job_b; job_c; job_d]).
Proof.
  split; [|split].
  - apply (save_then_load [] fresh_store). vm_compute. reflexivity.
  - apply (save_then_load [job_d] fresh_store). vm_compute. reflexivity.
  - apply (save_then_load [job_a; job_b; job_c; job_d] fresh_store). vm_compute. reflexivity.
Defined.
(* ===================================================================== *)
(** * The queue manager: submit                                           *)
(* ===================================================================== *)

(** C10: the id [submit_job] assigns and returns has exactly 8 characters,
    the first 8 of the string of a fresh UUID, whatever the command, the name
    and the timeout; the record stored under it is the last of the table. *)
Theorem submit_job_id_length command opt_name opt_timeout w i w' :
  submit_job command opt_name opt_timeout w = (Ok i, w') ->
  String.length i = 8 /\ i = next_id w
  /\ exists items job,
       loaded w' = JArr (items ++ [job_to_json job])
       /\ id job = i /\ state job = "queued".
Proof.
  intros H.
  destruct (submit_job_effect command opt_name opt_timeout w) as (_ & _ & [[_ Hno]|Hyes]);
    rewrite H in *; cbn [fst snd] in *.
  - exfalso. apply (Hno i). reflexivity.
  - destruct Hyes as (items & _ & Hl & Hi). injection Hi as ->.
    split; [|split].
    + apply length_slice_uuid.
    + reflexivity.
    + exists items. eexists. rewrite new_job_record in Hl. split; [exact Hl|].
      split; reflexivity.
Qed.

Lemma submit_job_id_length_witness :
  String.length "00000000" = 8 /\ "00000000" = next_id fresh_store
  /\ exists items job,
       loaded (snd (submit_job "make -j4" (Some "build") None fresh_store))
       = JArr (items ++ [job_to_json job])
       /\ id job = "00000000" /\ state job = "queued".
Proof.
  apply (submit_job_id_length "make -j4" (Some "build") None fresh_store "00000000"
           (snd (submit_job "make -j4" (Some "build") None fresh_store))).
  vm_compute. reflexivity.
Defined.

(** ** Ids across submissions *)

(** C6, as the code has it: after any sequence of submissions the ids of the
    store are pairwise distinct provided the 8-character prefixes of the UUIDs
    drawn are pairwise distinct and differ from the ids already stored;
    [submit_job] itself checks nothing. *)
Theorem submitted_ids_distinct reqs w (t : list job) :
  as_table (loaded w) = Some t ->
  NoDup (map id t ++ next_ids (length reqs) w) ->
  exists t', as_table (loaded (submit_each reqs w)) = Some t' /\ NoDup (map id t').
Proof.
  revert w t. induction reqs as [|r reqs IH]; intros w t Ht Hnd.
  - exists t. split; [exact Ht|]. cbn in Hnd. rewrite app_nil_r in Hnd. exact Hnd.
  - cbn [submit_each]. cbn [length] in Hnd.
    destruct (submit_job_effect (req_command r) (req_name r) (req_timeout r) w)
      as (He & Hd & Hcases).
    rewrite (next_ids_step _ _ _ He Hd) in Hnd.
    destruct Hcases as [[Hsame _]|(items & Hl & Hl' & _)].
    + apply (IH _ t); [rewrite Hsame; exact Ht|].
      apply NoDup_app in Hnd as (H1 & H2 & H3). apply NoDup_cons in H3 as [_ H3].
      apply NoDup_app. repeat split; [exact H1| |exact H3].
      intros x Hx Hx'. apply (H2 x Hx). right. exact Hx'.
    + rewrite Hl in Ht. cbn [as_table] in Ht. rewrite new_job_record in Hl'.
      eapply IH; [rewrite Hl'; apply as_table_app; exact Ht|].
      rewrite map_app. cbn [map id]. rewrite <- app_assoc. exact Hnd.
Qed.

Lemma submitted_ids_distinct_witness :
  exists t',
    as_table (loaded (submit_each [Request "true" None None; Request "exit 7" None (Some 5%Z)]
                        (store_of [job_a; job_b] ∅))) = Some t'
    /\ NoDup (map id t').
Proof.
  apply (submitted_ids_distinct _ (store_of [job_a; job_b] ∅) [job_a; job_b]).
  - vm_compute. reflexivity.
  - apply (bool_decide_unpack _). vm_compute. exact I.
Defined.

(** C6, as the specification has it, fails: two submissions whose UUIDs
    differ and agree on their first 8 characters leave two records with one
    id in the store. *)
Lemma submit_twice_same_id :
  uuid_str (uuid_int (close_draws 0 mod 2 ^ 128)%N)
    <> uuid_str (uuid_int (close_draws 1 mod 2 ^ 128)%N)
  /\ (map id <$> as_table (loaded (submit_each [Request "true" None None;
                                                   Request "exit 7" None None]
                                                  colliding_store)))
     = Some ["5eed5eed"; "5eed5eed"].
Proof. split; [vm_compute; discriminate|vm_compute; reflexivity]. Qed.
(* ===================================================================== *)
(** * The queue manager: cancel                                           *)
(* ===================================================================== *)

(** C9: cancelling a job whose state is terminal changes nothing: the call
    prints that the job cannot be cancelled ([AlreadyTerminal]) and leaves the
    store, and so the record, as they were.  The job is the first dictionary
    of the stored list with the id. *)
Theorem cancel_terminal_is_noop job_id w items i d s :
  loaded w = JArr items ->
  find_job job_id 0 items w = (Ok (Some (i, JObj d)), w) ->
  dict_get "state" d = Some (JStr s) ->
  terminal s ->
  exists w', cancel_job job_id w = (Ok tt, w')
    /\ trace w' = trace w ++ [AlreadyTerminal job_id (JStr s)]
    /\ disk w' = disk w /\ procs w' = procs w
    /\ load_jobs w' = (Ok (JArr items), w').
Proof.
  intros Hl Hf Hs Hterm.
  exists (log (AlreadyTerminal job_id (JStr s)) w). split; [|repeat split].
  - rewrite (cancel_job_found _ _ _ _ _ _ Hl Hf Hs).
    rewrite (terminal_not_queued _ Hterm), (terminal_not_running _ Hterm). reflexivity.
  - rewrite load_jobs_loaded, loaded_log, Hl. reflexivity.
Qed.

Lemma cancel_terminal_is_noop_witness :
  exists w', cancel_job "0a1b2c3d" (store_of [job_a; job_b] ∅) = (Ok tt, w')
    /\ trace w' = trace (store_of [job_a; job_b] ∅)
                  ++ [AlreadyTerminal "0a1b2c3d" (JStr "finished")]
    /\ disk w' = disk (store_of [job_a; job_b] ∅)
    /\ procs w' = procs (store_of [job_a; job_b] ∅)
    /\ load_jobs w' = (Ok (JArr (map job_to_json [job_a; job_b])), w').
Proof.
  apply (cancel_terminal_is_noop "0a1b2c3d" (store_of [job_a; job_b] ∅)
           (map job_to_json [job_a; job_b]) 0 (members (job_to_json job_a)) "finished").
  - vm_compute. reflexivity.
  - vm_compute. reflexivity.
  - reflexivity.
  - left. reflexivity.
Defined.

(** C8 fails on the code.  A job is [running], its process alive, and the
    directory [jobs/] may not be written to.  [cancel_job] delivers the
    termination signal, the process is gone, and the save that follows
    raises inside the same [try]: the handler meant for a signal that could
    not be delivered prints that the process could not be killed
    ([CancelFailed]), and the store still says [running].  Where the
    directory may be written to, the same call saves the record as
    [cancelled], all other fields as they were.  Where the signal is not
    delivered, the process gone or not this user's, the call prints
    [CancelFailed] and leaves the store and the processes as they were
    ([cancel_running_cases] has the three cases for every store). *)
Theorem cancel_running_save_failure :
  let ps : gmap Z process := {[ 4100%Z := Process true Hangs ]} in
  let w := read_only_store [job_a; job_b] ps in
  let w' := snd (cancel_job "9e8f7a6b" w) in
  let good := snd (cancel_job "9e8f7a6b" (store_of [job_a; job_b] ps)) in
  let gone := store_of [job_a; job_b] ∅ in
  let foreign := store_of [job_a; job_b] {[ 4100%Z := Process false Hangs ]} in
  stored_table w = Some [job_a; job_b]
  /\ os_kill (JNum 4100) SIGTERM w
     = (Ok tt, log (Signalled 4100 SIGTERM) (set_procs ∅ w))
  /\ fst (cancel_job "9e8f7a6b" w) = Ok tt
  /\ trace w' = [Signalled 4100 SIGTERM; CancelFailed (JNum 4100)]
  /\ procs w' !! 4100%Z = None
  /\ disk w' = disk w
  /\ stored_table w' = Some [job_a; job_b]
  /\ state job_b = "running"
  /\ stored_table good =
       Some [ job_a;
              Job "9e8f7a6b" "sleep 100" "sleep 100" "cancelled" (Some 4100%Z) (at_secs 900)
                  (at_secs 950) None (Some 60%Z) ]
  /\ trace good =
       [ Signalled 4100 SIGTERM;
         Stored (secs 1000)
           (dumps (table_to_json
              [ job_a;
                Job "9e8f7a6b" "sleep 100" "sleep 100" "cancelled" (Some 4100%Z)
                    (at_secs 900) (at_secs 950) None (Some 60%Z) ]));
         Printed (Msg_cancelled_running "9e8f7a6b") ]
  /\ cancel_job "9e8f7a6b" gone = (Ok tt, log (CancelFailed (JNum 4100)) gone)
  /\ cancel_job "9e8f7a6b" foreign = (Ok tt, log (CancelFailed (JNum 4100)) foreign).
Proof. vm_compute. repeat split. Qed.
(* ===================================================================== *)
(** * The runner daemon on example tables                                 *)
(* ===================================================================== *)

(** C1 fails on the code.  A queued job with a timeout of 1 whose command
    runs for 100 is started at time 1000: the pass saves it as [running],
    blocks in [p.wait()] until time 1100, and saves it as [finished].  The
    store shows [running] from 1000 to 1100, well past the deadline 1001 plus
    the sleep of 2; no signal is sent and the state [timeout] is never
    recorded.  When the command never exits the pass never returns and the
    record stays [running].  The check itself works where it is reached, on
    a record already [running] when the pass starts. *)
Theorem started_job_outlives_timeout :
  let w := store_of [slow_job] ∅ in
  let w' := snd (run_jobs 1 w) in
  let adopted := snd (scan_pass (store_of [overdue_job] {[ 4100%Z := Process true Hangs ]})) in
  timeout slow_job = Some 1%Z
  /\ programs w (cmd slow_job) = Exits (secs 100) 0
  /\ fst (run_jobs 1 w) = Ok tt
  /\ history (trace w') =
       [ (secs 1000, [("51035103", "running")]); (secs 1100, [("51035103", "finished")]) ]
  /\ kills (trace w') = []
  /\ (map state <$> stored_table w') = Some ["finished"]
  /\ fst (scan_pass (store_of [stuck_job] ∅)) = Blocked
  /\ (map state <$> stored_table (snd (scan_pass (store_of [stuck_job] ∅))))
     = Some ["running"]
  /\ kills (trace adopted) = [(4100%Z, SIGKILL)]
  /\ stored_table adopted
     = Some [ Job "ad0bad0b" "sleep 100" "sleep 100" "timeout" (Some 4100%Z) (at_secs 900)
                  (at_secs 950) (at_secs 1000) (Some 30%Z) ].
Proof. vm_compute. repeat split. Qed.

(** C4 fails on the code.  A queued job whose command exits with code 0,
    started while the directory of finished logs is missing: the command is
    launched and exits, [os.rename] raises, the handler meant for a failed
    launch catches it, and the job is saved as [failed].  With both log
    directories in place the exit code decides: code 0 gives [finished],
    code 7 gives [failed], and the end time is the start time plus the time
    the command ran. *)
Theorem exit_zero_recorded_failed :
  let w := store_without_finished [quick_job] in
  let w' := snd (scan_pass w) in
  programs w (cmd quick_job) = Exits (secs 1) 0
  /\ fst (scan_pass w) = Ok tt
  /\ spawned (trace w') = [("true", 4242%Z)]
  /\ printed (trace w') =
       [ Msg_starting (JStr "901c901c") (JStr "true");
         Msg_failed_to_start (JStr "901c901c") FileNotFoundError ]
  /\ stored_table w' =
       Some [ Job "901c901c" "true" "true" "failed" (Some 4242%Z) (at_secs 990)
                  (at_secs 1000) (at_secs 1001) (Some 3600%Z) ]
  /\ stored_table (snd (scan_pass (store_of [quick_job; failing_job] ∅))) =
       Some [ Job "901c901c" "true" "true" "finished" (Some 4242%Z) (at_secs 990)
                  (at_secs 1000) (at_secs 1001) (Some 3600%Z);
              Job "fa11fa11" "exit 7" "exit 7" "failed" (Some 4243%Z) (at_secs 990)
                  (at_secs 1001) (at_secs 1002) (Some 3600%Z) ].
Proof. vm_compute. repeat split. Qed.

(** C7 fails on the code.  Two machines that differ in one thing only,
    whether the directory of finished logs exists, run the same queued job
    whose command exits with code 0: where the rename succeeds the job ends
    [finished], where it fails the job ends [failed]. *)
Theorem rename_failure_changes_state :
  let good := snd (scan_pass (store_of [quick_job] ∅)) in
  let bad := snd (scan_pass (store_without_finished [quick_job])) in
  (map state <$> stored_table good) = Some ["finished"]
  /\ (map state <$> stored_table bad) = Some ["failed"]
  /\ printed (trace good) =
       [ Msg_starting (JStr "901c901c") (JStr "true");
         Msg_done (JStr "901c901c") (JStr "finished") ]
  /\ printed (trace bad) =
       [ Msg_starting (JStr "901c901c") (JStr "true");
         Msg_failed_to_start (JStr "901c901c") FileNotFoundError ]
  /\ history (trace bad) =
       [ (secs 1000, [("901c901c", "running")]); (secs 1001, [("901c901c", "failed")]) ].
Proof. vm_compute. repeat split. Qed.

